(** * Time-lock notes: the codec ([crypto.Encrypt], [crypto.Decrypt]) and the
    Badger-backed record store ([storage.BadgerStore])

    A shallow embedding of the Go sources and the properties the
    specification states about them.

    Conventions of the embedding:
    - a Go [byte] is a [Z] in [0, 256), a [[]byte] is a [list Z]; the [nil]
      slice and the empty slice are both [[]];
    - [int64], [uint64] and [time.Duration] values are [Z] with the
      wrap-around of the conversions and of the arithmetic written out;
    - a [time.Time] is the number of nanoseconds since the Unix epoch;
    - a Go function that may panic returns an [outcome];
    - the standard library primitives the codec calls (AES, GCM, SHA-256)
      are defined here from their standards and checked on the published
      test vectors. *)

From Stdlib Require Import ZArith List Lia Bool.
From Stdlib Require Import Strings.String Strings.Ascii.
From stdpp Require Import base option gmap strings.
Import ListNotations.

#[local] Open Scope Z_scope.
#[local] Open Scope list_scope.

(* ===================================================================== *)
(** * Machine integers and bytes *)
(* ===================================================================== *)

Abbreviation byte := Z (only parsing).

Definition is_byte (b : Z) : bool := (0 <=? b) && (b <? 256).

(** [uint64(x)]: reduction modulo 2^64. *)
Definition to_uint64 (x : Z) : Z := x mod 2 ^ 64.

(** [int64(x)]: two's complement wrap-around into [-2^63, 2^63). *)
Definition to_int64 (x : Z) : Z := (x + 2 ^ 63) mod 2 ^ 64 - 2 ^ 63.

Definition to_uint32 (x : Z) : Z := x mod 2 ^ 32.

(** Go's [/] on signed integers truncates toward zero. *)
Definition int64_div (a b : Z) : Z := to_int64 (Z.quot a b).

Definition int64_sub (a b : Z) : Z := to_int64 (a - b).
Definition int64_add (a b : Z) : Z := to_int64 (a + b).
Definition int64_mul (a b : Z) : Z := to_int64 (a * b).

Definition maxInt64 : Z := 2 ^ 63 - 1.
Definition minInt64 : Z := - 2 ^ 63.

(** [make([]byte, n)]. *)
Definition make (n : nat) : list byte := repeat 0 n.

(** Big-endian packing of bytes into a number and back. *)
Definition be_to_Z (bs : list byte) : Z :=
  fold_left (fun acc b => acc * 256 + b) bs 0.

Fixpoint Z_to_be (n : nat) (x : Z) : list byte :=
  match n with
  | O => []
  | S n' => (x / 256 ^ Z.of_nat n') mod 256 :: Z_to_be n' x
  end.

(** [nth] on byte lists, reading 0 out of range (callers stay in range). *)
Definition at_ (bs : list Z) (i : nat) : Z := nth i bs 0.

(** The slice [bs[lo:hi]] for [lo <= hi <= len(bs)]. *)
Definition slice (bs : list byte) (lo hi : nat) : list byte :=
  firstn (hi - lo) (skipn lo bs).

(** Consecutive chunks of [n] elements; the last one may be shorter. *)
Fixpoint chunks_fuel {A} (fuel n : nat) (l : list A) : list (list A) :=
  match fuel, l with
  | _, [] => []
  | O, _ => []
  | S f, _ => firstn n l :: chunks_fuel f n (skipn n l)
  end.

Definition chunks {A} (n : nat) (l : list A) : list (list A) :=
  chunks_fuel (length l) n l.

Definition xor_bytes (a b : list byte) : list byte :=
  map (fun p => Z.lxor (fst p) (snd p)) (combine a b).

(* ===================================================================== *)
(** * Outcomes and errors *)
(* ===================================================================== *)

(** A Go call either returns or panics with a run-time error. *)
Inductive outcome (A : Type) : Type :=
| Returns (a : A)
| Panics (msg : string).
Arguments Returns {A} a.
Arguments Panics {A} msg.

(** Go [error] values.  Package-level sentinels are compared by identity in
    the sources ([err == ErrTooEarly]), so each has its own constructor;
    [Errorf] is [fmt.Errorf] without [%w], [Wrapf] is [fmt.Errorf] with a
    trailing [%w]; [Foreign] is an error made by a library or a
    collaborator. *)
Inductive error : Type :=
| ErrTooEarly                           (* crypto: errors.New("too early to decrypt") *)
| ErrNotFound                           (* storage: errors.New("note not found") *)
| ErrKeyNotFound                        (* badger.ErrKeyNotFound *)
| ErrEmptyKey                           (* badger.ErrEmptyKey *)
| EOF                                   (* io.EOF *)
| ErrUnexpectedEOF                      (* io.ErrUnexpectedEOF *)
| Foreign (msg : string)
| Errorf (msg : string)
| Wrapf (msg : string) (cause : error).

#[global] Instance error_eq_dec : EqDecision error.
Proof. solve_decision. Defined.

(** [err.Error()]. *)
Fixpoint Error (e : error) : string :=
  match e with
  | ErrTooEarly => "too early to decrypt"
  | ErrNotFound => "note not found"
  | ErrKeyNotFound => "Key not found"
  | ErrEmptyKey => "Key cannot be empty"
  | EOF => "EOF"
  | ErrUnexpectedEOF => "unexpected EOF"
  | Foreign m => m
  | Errorf m => m
  | Wrapf m c => m ++ Error c
  end%string.

(* ===================================================================== *)
(** * AES (FIPS 197), as [crypto/aes] computes it *)
(* ===================================================================== *)

Module aes.

Definition BlockSize : nat := 16.

(** Multiplication by x in GF(2^8) modulo x^8 + x^4 + x^3 + x + 1. *)
Definition xtime (b : Z) : Z :=
  let s := Z.shiftl b 1 in
  if Z.testbit b 7 then Z.lxor (Z.land s 255) 27 else s.

Fixpoint gmul_fuel (n : nat) (a b acc : Z) : Z :=
  match n with
  | O => acc
  | S n' =>
      gmul_fuel n' (xtime a) (Z.shiftr b 1)
        (if Z.testbit b 0 then Z.lxor acc a else acc)
  end.

Definition gmul (a b : Z) : Z := gmul_fuel 8 a b 0.

Fixpoint gpow (a : Z) (n : nat) : Z :=
  match n with
  | O => 1
  | S n' => gmul a (gpow a n')
  end.

(** The multiplicative inverse, with 0 mapped to 0. *)
Definition ginv (a : Z) : Z := gpow a 254.

Definition rotl8 (b : Z) (k : Z) : Z :=
  Z.land (Z.lor (Z.shiftl b k) (Z.shiftr b (8 - k))) 255.

Definition sbox_calc (a : Z) : Z :=
  let b := ginv a in
  Z.lxor (Z.lxor (Z.lxor (Z.lxor (Z.lxor b (rotl8 b 1)) (rotl8 b 2)) (rotl8 b 3))
            (rotl8 b 4)) 99.

Definition sbox_table : list Z :=
  Eval vm_compute in map (fun i => sbox_calc (Z.of_nat i)) (seq 0 256).

Definition sbox (b : Z) : Z := nth (Z.to_nat b) sbox_table 0.

Definition SubWord (w : list Z) : list Z := map sbox w.

Definition RotWord (w : list Z) : list Z :=
  match w with
  | a :: rest => rest ++ [a]
  | [] => []
  end.

(** Round constants: [Rcon i] is x^(i-1). *)
Definition Rcon (i : nat) : list Z := [gpow 2 (i - 1); 0; 0; 0].

(** Key expansion: the schedule is a list of 4-byte words, [Nk] words of
    key first, extended to [4 * (Nr + 1)] words. *)
Fixpoint expand_fuel (fuel : nat) (Nk : nat) (i : nat) (w : list (list Z))
  : list (list Z) :=
  match fuel with
  | O => w
  | S f =>
      let temp := nth (i - 1) w [] in
      let temp' :=
        if (i mod Nk =? 0)%nat
        then xor_bytes (SubWord (RotWord temp)) (Rcon (i / Nk))
        else if ((6 <? Nk) && (i mod Nk =? 4))%nat
             then SubWord temp
             else temp in
      expand_fuel f Nk (S i) (w ++ [xor_bytes (nth (i - Nk) w []) temp'])
  end.

Definition KeyExpansion (key : list byte) : list (list Z) :=
  let Nk := (length key / 4)%nat in
  let Nr := (Nk + 6)%nat in
  expand_fuel (4 * (Nr + 1) - Nk) Nk Nk (chunks 4 key).

(** The state is 16 bytes in column-major order: byte [r + 4c] is row
    [r], column [c]. *)
Definition SubBytes (s : list Z) : list Z := map sbox s.

Definition ShiftRows (s : list Z) : list Z :=
  map (fun i => let r := (i mod 4)%nat in
                let c := (i / 4)%nat in
                at_ s (r + 4 * ((c + r) mod 4)))
      (seq 0 16).

Definition mix_column (col : list Z) : list Z :=
  let a0 := at_ col 0 in let a1 := at_ col 1 in
  let a2 := at_ col 2 in let a3 := at_ col 3 in
  [ Z.lxor (Z.lxor (Z.lxor (gmul 2 a0) (gmul 3 a1)) a2) a3;
    Z.lxor (Z.lxor (Z.lxor a0 (gmul 2 a1)) (gmul 3 a2)) a3;
    Z.lxor (Z.lxor (Z.lxor a0 a1) (gmul 2 a2)) (gmul 3 a3);
    Z.lxor (Z.lxor (Z.lxor (gmul 3 a0) a1) a2) (gmul 2 a3) ].

Definition MixColumns (s : list Z) : list Z :=
  concat (map mix_column (chunks 4 s)).

Definition AddRoundKey (s : list Z) (rk : list (list Z)) : list Z :=
  xor_bytes s (concat rk).

Definition round_key (w : list (list Z)) (r : nat) : list (list Z) :=
  firstn 4 (skipn (4 * r) w).

Fixpoint rounds (n : nat) (r : nat) (w : list (list Z)) (s : list Z) : list Z :=
  match n with
  | O => s
  | S n' =>
      rounds n' (S r) w
        (AddRoundKey (MixColumns (ShiftRows (SubBytes s))) (round_key w r))
  end.

(** A [cipher.Block]: the expanded key. *)
Record Block : Type := { schedule : list (list Z); Nr : nat }.

(** [aes.NewCipher]: a key of 16, 24 or 32 bytes, else [KeySizeError]. *)
Definition NewCipher (key : list byte) : Block + error :=
  let k := length key in
  if ((k =? 16) || (k =? 24) || (k =? 32))%nat
  then inl {| schedule := KeyExpansion key; Nr := (k / 4 + 6)%nat |}
  else inr (Foreign "crypto/aes: invalid key size").

(** [Block.Encrypt] on one 16-byte block. *)
Definition Encrypt (c : Block) (src : list byte) : list byte :=
  let w := schedule c in
  let s0 := AddRoundKey src (round_key w 0) in
  let s1 := rounds (Nr c - 1) 1 w s0 in
  AddRoundKey (ShiftRows (SubBytes s1)) (round_key w (Nr c)).

End aes.

(** Hexadecimal literals for test vectors. *)
Definition hex_digit (c : ascii) : Z :=
  let n := Z.of_nat (nat_of_ascii c) in
  if (48 <=? n) && (n <=? 57) then n - 48
  else if (97 <=? n) && (n <=? 102) then n - 87
  else 0.

Fixpoint unhex (s : string) : list byte :=
  match s with
  | String a (String b rest) => (16 * hex_digit a + hex_digit b) :: unhex rest
  | _ => []
  end.

Definition block_of_key (key : list byte) : aes.Block :=
  match aes.NewCipher key with
  | inl c => c
  | inr _ => {| aes.schedule := []; aes.Nr := 0 |}
  end.

(* ===================================================================== *)
(** * GCM (NIST SP 800-38D), as [crypto/cipher] computes it *)
(* ===================================================================== *)

Module cipher.

Definition gcmBlockSize : nat := 16.
Definition gcmTagSize : nat := 16.
Definition gcmStandardNonceSize : nat := 12.

(** [((1 << 32) - 2) * BlockSize], the longest plaintext GCM accepts. *)
Definition gcmMaxPlaintext : Z := (2 ^ 32 - 2) * 16.

Definition errOpen : error := Foreign "cipher: message authentication failed".

(** A field element is a 128-bit number whose most significant bit is the
    coefficient of x^0 (the bit order of the standard). *)
Definition gcmR : Z := Z.shiftl 225 120.

Fixpoint gf_mul_fuel (n : nat) (x v z : Z) : Z :=
  match n with
  | O => z
  | S n' =>
      let z' := if Z.testbit x (Z.of_nat n') then Z.lxor z v else z in
      let v' := if Z.testbit v 0
                then Z.lxor (Z.shiftr v 1) gcmR
                else Z.shiftr v 1 in
      gf_mul_fuel n' x v' z'
  end.

Definition gf_mul (x y : Z) : Z := gf_mul_fuel 128 x y 0.

(** A 16-byte block, short input padded with zeros on the right. *)
Definition pad16 (bs : list byte) : list byte :=
  bs ++ repeat 0 (16 - length bs).

Definition ghash_update (H : Z) (y : Z) (data : list byte) : Z :=
  fold_left (fun acc blk => gf_mul (Z.lxor acc (be_to_Z (pad16 blk))) H)
            (chunks 16 data) y.

(** An AEAD made by [NewGCM]: the block cipher it wraps. *)
Record AEAD : Type := { block : aes.Block }.

(** [cipher.NewGCM]: fails unless the block size is 16, which it is for
    every AES block. *)
Definition NewGCM (b : aes.Block) : AEAD + error :=
  if (aes.BlockSize =? gcmBlockSize)%nat
  then inl {| block := b |}
  else inr (Foreign "cipher: NewGCM requires 128-bit block cipher").

Definition counter_block (nonce : list byte) (ctr : Z) : list byte :=
  nonce ++ Z_to_be 4 ctr.

(** [counterCrypt]: XOR with the key stream, one counter per block. *)
Fixpoint counterCrypt_blocks (b : aes.Block) (nonce : list byte) (ctr : Z)
  (blocks : list (list byte)) : list byte :=
  match blocks with
  | [] => []
  | blk :: rest =>
      xor_bytes blk (aes.Encrypt b (counter_block nonce ctr))
        ++ counterCrypt_blocks b nonce (to_uint32 (ctr + 1)) rest
  end.

Definition counterCrypt (b : aes.Block) (nonce : list byte) (ctr : Z)
  (data : list byte) : list byte :=
  counterCrypt_blocks b nonce ctr (chunks 16 data).

(** [auth]: GHASH of the additional data and the ciphertext, then of
    their bit lengths, masked with the encrypted first counter. *)
Definition auth (b : aes.Block) (nonce : list byte)
  (ciphertext additionalData : list byte) : list byte :=
  let H := be_to_Z (aes.Encrypt b (repeat 0 16)) in
  let tagMask := aes.Encrypt b (counter_block nonce 1) in
  let y1 := ghash_update H 0 additionalData in
  let y2 := ghash_update H y1 ciphertext in
  let lens := Z.of_nat (length additionalData) * 8 * 2 ^ 64
              + Z.of_nat (length ciphertext) * 8 in
  let y3 := gf_mul (Z.lxor y2 lens) H in
  xor_bytes (Z_to_be 16 y3) tagMask.

(** [AEAD.Seal(nil, nonce, plaintext, additionalData)]. *)
Definition Seal (g : AEAD) (nonce plaintext additionalData : list byte)
  : outcome (list byte) :=
  if negb (length nonce =? gcmStandardNonceSize)%nat
  then Panics "crypto/cipher: incorrect nonce length given to GCM"
  else if gcmMaxPlaintext <? Z.of_nat (length plaintext)
  then Panics "crypto/cipher: message too large for GCM"
  else
    let ct := counterCrypt (block g) nonce 2 plaintext in
    Returns (ct ++ auth (block g) nonce ct additionalData).

(** [subtle.ConstantTimeCompare(a, b) == 1]. *)
Definition bytes_eqb (a b : list byte) : bool :=
  (length a =? length b)%nat
  && forallb (fun p => fst p =? snd p) (combine a b).

(** [AEAD.Open(nil, nonce, ciphertext, additionalData)]. *)
Definition Open (g : AEAD) (nonce ciphertext additionalData : list byte)
  : outcome (list byte * option error) :=
  if negb (length nonce =? gcmStandardNonceSize)%nat
  then Panics "crypto/cipher: incorrect nonce length given to GCM"
  else if (length ciphertext <? gcmTagSize)%nat
  then Returns ([], Some errOpen)
  else if gcmMaxPlaintext + Z.of_nat gcmTagSize <? Z.of_nat (length ciphertext)
  then Returns ([], Some errOpen)
  else
    let n := (length ciphertext - gcmTagSize)%nat in
    let tag := skipn n ciphertext in
    let ct := firstn n ciphertext in
    let expectedTag := auth (block g) nonce ct additionalData in
    if negb (bytes_eqb expectedTag tag)
    then Returns ([], Some errOpen)
    else Returns (counterCrypt (block g) nonce 2 ct, None).

End cipher.

Definition gcm_of_key (key : list byte) : cipher.AEAD :=
  {| cipher.block := block_of_key key |}.

(* ===================================================================== *)
(** * SHA-256 (FIPS 180-4), as [crypto/sha256] computes it *)
(* ===================================================================== *)

Module sha256.

Definition Size : nat := 32.

Definition mask32 (x : Z) : Z := Z.land x (2 ^ 32 - 1).
Definition add32 (x y : Z) : Z := mask32 (x + y).
Definition rotr (n x : Z) : Z :=
  mask32 (Z.lor (Z.shiftr x n) (Z.shiftl x (32 - n))).

Definition Ch (x y z : Z) : Z :=
  Z.lxor (Z.land x y) (Z.land (Z.lxor x (2 ^ 32 - 1)) z).
Definition Maj (x y z : Z) : Z :=
  Z.lxor (Z.lxor (Z.land x y) (Z.land x z)) (Z.land y z).
Definition Sigma0 (x : Z) : Z := Z.lxor (Z.lxor (rotr 2 x) (rotr 13 x)) (rotr 22 x).
Definition Sigma1 (x : Z) : Z := Z.lxor (Z.lxor (rotr 6 x) (rotr 11 x)) (rotr 25 x).
Definition sigma0 (x : Z) : Z := Z.lxor (Z.lxor (rotr 7 x) (rotr 18 x)) (Z.shiftr x 3).
Definition sigma1 (x : Z) : Z := Z.lxor (Z.lxor (rotr 17 x) (rotr 19 x)) (Z.shiftr x 10).

Definition K : list Z := map be_to_Z (chunks 4 (unhex
  ("428a2f9871374491b5c0fbcfe9b5dba53956c25b59f111f1923f82a4ab1c5ed5" ++
   "d807aa9812835b01243185be550c7dc372be5d7480deb1fe9bdc06a7c19bf174" ++
   "e49b69c1efbe47860fc19dc6240ca1cc2de92c6f4a7484aa5cb0a9dc76f988da" ++
   "983e5152a831c66db00327c8bf597fc7c6e00bf3d5a7914706ca635114292967" ++
   "27b70a852e1b21384d2c6dfc53380d13650a7354766a0abb81c2c92e92722c85" ++
   "a2bfe8a1a81a664bc24b8b70c76c51a3d192e819d6990624f40e3585106aa070" ++
   "19a4c1161e376c082748774c34b0bcb5391c0cb34ed8aa4a5b9cca4f682e6ff3" ++
   "748f82ee78a5636f84c878148cc7020890befffaa4506cebbef9a3f7c67178f2")%string)).

(** The eight working variables, also the chaining value. *)
Record state : Type := State { a : Z; b : Z; c : Z; d : Z; e : Z; f : Z; g : Z; h : Z }.

Definition init : state :=
  State 1779033703 3144134277 1013904242 2773480762
        1359893119 2600822924 528734635 1541459225.

(** The message schedule: 16 words of the block, extended to 64. *)
Fixpoint schedule_fuel (fuel : nat) (w : list Z) : list Z :=
  match fuel with
  | O => w
  | S fl =>
      let t := length w in
      let x := add32 (add32 (sigma1 (at_ w (t - 2))) (at_ w (t - 7)))
                     (add32 (sigma0 (at_ w (t - 15))) (at_ w (t - 16))) in
      schedule_fuel fl (w ++ [x])
  end.

Definition schedule (blk : list byte) : list Z :=
  schedule_fuel 48 (map be_to_Z (chunks 4 blk)).

Definition round (s : state) (kw : Z * Z) : state :=
  let t1 := add32 (add32 (add32 (add32 (h s) (Sigma1 (e s))) (Ch (e s) (f s) (g s)))
                         (fst kw)) (snd kw) in
  let t2 := add32 (Sigma0 (a s)) (Maj (a s) (b s) (c s)) in
  State (add32 t1 t2) (a s) (b s) (c s) (add32 (d s) t1) (e s) (f s) (g s).

Definition compress (s : state) (blk : list byte) : state :=
  let r := fold_left round (combine K (schedule blk)) s in
  State (add32 (a s) (a r)) (add32 (b s) (b r)) (add32 (c s) (c r))
        (add32 (d s) (d r)) (add32 (e s) (e r)) (add32 (f s) (f r))
        (add32 (g s) (g r)) (add32 (h s) (h r)).

(** Padding: a 1 bit, zeros, and the bit length as a 64-bit number, up to
    a multiple of 64 bytes. *)
Definition pad (data : list byte) : list byte :=
  let n := length data in
  data ++ [128] ++ repeat 0 ((64 - (n + 9) mod 64) mod 64)
       ++ Z_to_be 8 (to_uint64 (Z.of_nat n * 8)).

Definition digest (s : state) : list byte :=
  Z_to_be 4 (a s) ++ Z_to_be 4 (b s) ++ Z_to_be 4 (c s) ++ Z_to_be 4 (d s)
  ++ Z_to_be 4 (e s) ++ Z_to_be 4 (f s) ++ Z_to_be 4 (g s) ++ Z_to_be 4 (h s).

(** [sha256.Sum256(data)], as the slice [h[:]]. *)
Definition Sum256 (data : list byte) : list byte :=
  digest (fold_left compress (chunks 64 (pad data)) init).

End sha256.

(** The bytes of a Go string literal. *)
Definition bytes_of_string (s : string) : list byte :=
  map (fun ch => Z.of_nat (nat_of_ascii ch)) (list_ascii_of_string s).

(** The conversion [string(b)] of a byte slice. *)
Definition string_of_bytes (bs : list byte) : string :=
  string_of_list_ascii (map (fun b => ascii_of_nat (Z.to_nat b)) bs).

(* ===================================================================== *)
(** * Time, the random source, the beacon client *)
(* ===================================================================== *)

Module time.

(** A [time.Time]: nanoseconds since the Unix epoch (wall clock only). *)
Definition Time : Type := Z.
(** A [time.Duration]: an [int64] count of nanoseconds. *)
Definition Duration : Type := Z.

Definition Second : Duration := 1000000000.
Definition Minute : Duration := 60 * Second.
Definition Hour : Duration := 60 * Minute.

(** [time.Unix(sec, nsec)]. *)
Definition Unix (sec nsec : Z) : Time := sec * Second + nsec.

(** [t.Unix()]: whole seconds since the epoch, an [int64]. *)
Definition UnixSeconds (t : Time) : Z := to_int64 (t / Second).

(** [t.Add(d)]. *)
Definition Add (t : Time) (d : Duration) : Time := t + d.

(** [t.Sub(u)], saturating at the ends of [Duration]. *)
Definition Sub (t u : Time) : Duration :=
  Z.max minInt64 (Z.min maxInt64 (t - u)).

(** [time.Until(t)] when the clock reads [now]. *)
Definition Until (now t : Time) : Duration := Sub t now.

(** [t.Before(u)]. *)
Definition Before (t u : Time) : bool := t <? u.

End time.

Module io.

(** An [io.Reader] as the bytes it still delivers and the error it
    reports once they are used up. *)
Record Reader : Type := { supply : list byte; fault : error }.

(** The error of [io.ReadAtLeast] when the reader stopped with [err] after
    [got] bytes, fewer than asked for: [if n > 0 && err == EOF { err =
    ErrUnexpectedEOF }]. *)
Definition short_read (got : nat) (err : error) : error :=
  if (0 <? got)%nat && bool_decide (err = EOF) then ErrUnexpectedEOF else err.

(** [io.ReadFull(r, buf)] with [len(buf) = n]: the filled buffer, the
    error, and the reader afterwards. *)
Definition ReadFull (r : Reader) (n : nat) : list byte * option error * Reader :=
  if (n <=? length (supply r))%nat
  then (firstn n (supply r), None,
        {| supply := skipn n (supply r); fault := fault r |})
  else (firstn n (supply r ++ make n),
        Some (short_read (length (supply r)) (fault r)),
        {| supply := []; fault := fault r |}).

End io.

(** The [Client] interface of package [crypto]: a beacon client. *)
Class Client (C : Type) : Type :=
  FetchRandomness : C -> Z -> list byte * option error.

(** [mockClient] of the codec's tests: fixed randomness, no error. *)
Record mockClient : Type := { randomness : list byte }.

#[global] Instance mockClient_Client : Client mockClient :=
  fun m _ => (randomness m, None).

Module drand.

(** The wrapper around the drand library client.  The library client is
    the function [Get] of a round, bounded by the 5 second context, giving
    the [Randomness()] of its result or an error. *)
Record Client : Type := { client : Z -> list byte * option error }.

Definition FetchRandomness (c : Client) (round : Z) : list byte * option error :=
  match client c round with
  | (_, Some err) => ([], Some (Wrapf "failed to fetch randomness: " err))
  | (result, None) => (result, None)
  end.

End drand.

#[global] Instance drand_Client : Client drand.Client := drand.FetchRandomness.

(* ===================================================================== *)
(** * Package [crypto]: [Encrypt] and [Decrypt] *)
(* ===================================================================== *)

(** [copy(dst[off:], src)]: overwrites as many bytes as fit. *)
Definition copy_at (dst : list byte) (off : nat) (src : list byte) : list byte :=
  firstn off dst
  ++ firstn (length dst - off) src
  ++ skipn (off + length src) dst.

Module crypto.

(** What a call of [Decrypt] did: the rounds it asked the beacon client
    for, in order, and how it ended. *)
Record run (A : Type) : Type := { calls : list Z; result : outcome A }.
Arguments calls {A} _.
Arguments result {A} _.

(** [Encrypt(plaintext, unlockAt)], when the clock reads [now] and
    [rand.Reader] is [rnd].  The result is the tuple
    [(ciphertext, hash, round, err)]. *)
Definition Encrypt (now : time.Time) (rnd : io.Reader)
  (plaintext : list byte) (unlockAt : time.Time)
  : outcome (list byte * list byte * Z * option error) :=
  let now := time.UnixSeconds now in
  let unlockTime := time.UnixSeconds unlockAt in
  let genesisTime := 1595431050 in
  let period := 30 in
  let currentRound := to_uint64 (int64_div (int64_sub now genesisTime) period) in
  let round := to_uint64 (int64_div (int64_sub unlockTime genesisTime) period) in
  if round <=? currentRound
  then Returns ([], [], 0, Some (Errorf "unlock time must be in the future"))
  else
    let '(key, err, rnd) := io.ReadFull rnd 32 in
    match err with
    | Some err =>
        Returns ([], [], 0, Some (Wrapf "failed to generate random key: " err))
    | None =>
    match aes.NewCipher key with
    | inr err =>
        Returns ([], [], 0, Some (Wrapf "failed to create AES cipher: " err))
    | inl block =>
    let '(nonce, err, rnd) := io.ReadFull rnd 12 in
    match err with
    | Some err =>
        Returns ([], [], 0, Some (Wrapf "failed to generate nonce: " err))
    | None =>
    match cipher.NewGCM block with
    | inr err =>
        Returns ([], [], 0, Some (Wrapf "failed to create GCM: " err))
    | inl aesgcm =>
    match cipher.Seal aesgcm nonce plaintext [] with
    | Panics msg => Panics msg
    | Returns cipherData =>
        let combined := make (length key + length nonce + length cipherData) in
        let combined := copy_at combined 0 key in
        let combined := copy_at combined (length key) nonce in
        let combined := copy_at combined (length key + length nonce) cipherData in
        let h := sha256.Sum256 combined in
        Returns (combined, h, round, None)
    end end end end end.

(** The loop [for i := 0; i < 32; i++ { actualKey[i] = key[i] ^
    randomness[i%len(randomness)] }], over the indices still to do. *)
Fixpoint derive_key (todo : list nat) (key randomness actualKey : list byte)
  : outcome (list byte) :=
  match todo with
  | [] => Returns actualKey
  | i :: rest =>
      if (length randomness =? 0)%nat
      then Panics "runtime error: integer divide by zero"
      else
        let x := Z.lxor (at_ key i) (at_ randomness (i mod length randomness)) in
        derive_key rest key randomness (<[i := x]> actualKey)
  end.

(** [Decrypt(ciphertext, round)], when the clock reads [now] and the
    package variable [DefaultClient] holds [DefaultClient]. *)
Definition Decrypt {C} `{Client C} (DefaultClient : C) (now : time.Time)
  (ciphertext : list byte) (round : Z) : run (list byte * option error) :=
  let genesisTime := time.Unix 1595431050 0 in
  let period := 30 * time.Second in
  let unlockTime := time.Add genesisTime (int64_mul (to_int64 round) period) in
  if time.Before now unlockTime
  then {| calls := []; result := Returns ([], Some ErrTooEarly) |}
  else
    let '(randomness, err) := FetchRandomness DefaultClient round in
    {| calls := [round];
       result :=
         match err with
         | Some err => Returns ([], Some (Wrapf "failed to fetch randomness: " err))
         | None =>
         if (length ciphertext <? 44)%nat
         then Returns ([], Some (Errorf "invalid ciphertext: too short"))
         else
           let key := slice ciphertext 0 32 in
           let nonce := slice ciphertext 32 44 in
           let encryptedData := skipn 44 ciphertext in
           match derive_key (seq 0 32) key randomness (make 32) with
           | Panics msg => Panics msg
           | Returns actualKey =>
           match aes.NewCipher actualKey with
           | inr err => Returns ([], Some (Wrapf "failed to create AES cipher: " err))
           | inl block =>
           match cipher.NewGCM block with
           | inr err => Returns ([], Some (Wrapf "failed to create GCM: " err))
           | inl aesgcm =>
           match cipher.Open aesgcm nonce encryptedData [] with
           | Panics msg => Panics msg
           | Returns (_, Some err) => Returns ([], Some (Wrapf "failed to decrypt: " err))
           | Returns (plaintext, None) => Returns (plaintext, None)
           end end end end
         end |}.

(** The error kinds of the specification, as the values the code returns. *)
Definition InvalidUnlockTime : error := Errorf "unlock time must be in the future".
Definition TooEarly : error := ErrTooEarly.
Definition BeaconUnavailable (cause : error) : error :=
  Wrapf "failed to fetch randomness: " cause.
Definition MalformedCiphertext : error := Errorf "invalid ciphertext: too short".
Definition DecryptionFailed (cause : error) : error :=
  Wrapf "failed to decrypt: " cause.

(** The round the code computes from an instant:
    [uint64((t.Unix() - genesisTime) / period)]. *)
Definition round_of (t : time.Time) : Z :=
  to_uint64 (int64_div (int64_sub (time.UnixSeconds t) 1595431050) 30).

(** The unlock instant [Decrypt] computes:
    [genesisTime.Add(time.Duration(round) * period)]. *)
Definition unlock_time (round : Z) : time.Time :=
  time.Add (time.Unix 1595431050 0) (int64_mul (to_int64 round) (30 * time.Second)).

(** The instant at which the beacon publishes a round,
    [genesisTime + round * period], in nanoseconds. *)
Definition round_boundary (round : Z) : time.Time :=
  time.Unix 1595431050 0 + round * (30 * time.Second).

End crypto.

(* ===================================================================== *)
(** * Package [storage]: notes and the Badger store *)
(* ===================================================================== *)

(** The composite key [fmt.Sprintf("%s:%s", id, hash)]. *)
Definition composite_key (id hash : string) : string :=
  (id ++ ":" ++ hash)%string.

Module badger.

(** Modelled from the spec: the Badger key-value engine, a library that is
    not part of the sources.  An entry carries the instant at which it
    stops being readable; an entry written with [WithTTL(ttl)] when the
    clock reads [now] stops being readable at [now + ttl], and a read of a
    key that is absent or no longer readable gives [ErrKeyNotFound].  The
    engine refuses the empty key, and a write may fail for reasons of its
    own (disk, size limits, a closed database); a failed write changes
    nothing. *)
Record Entry : Type := { Value : list byte; ExpiresAt : time.Time }.

(** The engine's side of one write: the clock reading of [WithTTL], and the
    error [Update] reports, if any. *)
Record Write : Type := { Stamp : time.Time; Failure : option error }.

Definition expired (now : time.Time) (e : Entry) : bool := ExpiresAt e <=? now.

(** [db.Update(func(txn) { return txn.SetEntry(NewEntry(key, value).WithTTL(ttl)) })] *)
Definition SetEntry (w : Write) (db : gmap string Entry)
  (key : string) (value : list byte) (ttl : time.Duration)
  : gmap string Entry * option error :=
  if decide (key = ""%string)
  then (db, Some ErrEmptyKey)
  else match Failure w with
       | Some err => (db, Some err)
       | None =>
           (<[key := {| Value := value; ExpiresAt := time.Add (Stamp w) ttl |}]> db,
            None)
       end.

(** [txn.Get(key)] followed by [item.Value]. *)
Definition Get (now : time.Time) (db : gmap string Entry) (key : string)
  : list byte + error :=
  if decide (key = ""%string)
  then inr ErrEmptyKey
  else match db !! key with
       | None => inr ErrKeyNotFound
       | Some e => if expired now e then inr ErrKeyNotFound else inl (Value e)
       end.

End badger.

Module storage.

(** [Note]: a stored encrypted note.  [ID] is a UUIDv4 and [Hash] the
    hexadecimal SHA-256 of [Cipher] when the server makes the note. *)
Record Note : Type := {
  ID : string;
  Hash : string;
  Cipher : list byte;
  Round : Z;
  UnlockAt : time.Time
}.

(** [Note{}]; the zero [time.Time] is year 1, not the epoch. *)
Definition zero_Note : Note :=
  {| ID := ""; Hash := ""; Cipher := []; Round := 0;
     UnlockAt := time.Unix (-62135596800) 0 |}.

(** The serialization the store writes and reads, [json.Marshal] and
    [json.Unmarshal] in the source, as an interface: what holds of the store
    for every serialization is proved for every instance, and the instance
    for [encoding/json] is [json.codec] below.  A serialization [roundtrips]
    a note when decoding what it encoded gives the note back. *)
Class Codec : Type := {
  Marshal : Note -> list byte + error;
  Unmarshal : list byte -> Note + error
}.

Definition roundtrips (codec : Codec) (n : Note) : Prop :=
  forall data, Marshal n = inl data -> Unmarshal data = inl n.

(** The retention window, [7 * 24 * time.Hour]. *)
Definition retention : time.Duration := 7 * 24 * time.Hour.

Section BadgerStore.

Context {codec : Codec}.

(** [BadgerStore.Save], when the clock reads [now] at [time.Until] and the
    engine does [w] with the write: the store afterwards and the error. *)
Definition Save (now : time.Time) (w : badger.Write)
  (db : gmap string badger.Entry) (n : Note)
  : gmap string badger.Entry * option error :=
  let ttl := time.Until now (time.Add (UnlockAt n) (7 * 24 * time.Hour)) in
  match Marshal n with
  | inr err => (db, Some (Wrapf "failed to marshal note: " err))
  | inl data =>
      let key := composite_key (ID n) (Hash n) in
      match badger.SetEntry w db key data ttl with
      | (db', Some err) => (db', Some (Wrapf "failed to save note: " err))
      | (db', None) => (db', None)
      end
  end.

(** [BadgerStore.Get], when the clock reads [now]. *)
Definition Get (now : time.Time) (db : gmap string badger.Entry)
  (id hash : string) : Note * option error :=
  let key := composite_key id hash in
  let '(note, err) :=
    match badger.Get now db key with
    | inr err =>
        if decide (err = ErrKeyNotFound)
        then (zero_Note, Some ErrNotFound)
        else (zero_Note, Some err)
    | inl val =>
        match Unmarshal val with
        | inr err => (zero_Note, Some err)
        | inl note => (note, None)
        end
    end in
  match err with
  | Some err =>
      if decide (err = ErrNotFound)
      then (zero_Note, Some ErrNotFound)
      else (zero_Note, Some (Wrapf "failed to get note: " err))
  | None => (note, None)
  end.

(** The store after a sequence of [Save] calls, each with its own clock
    reading and its own write. *)
Definition save_all (db : gmap string badger.Entry)
  (saves : list (time.Time * badger.Write * Note)) : gmap string badger.Entry :=
  foldl (fun db tn => fst (Save (fst (fst tn)) (snd (fst tn)) db (snd tn))) db saves.

(** The instant at which a [Save] that read the clock at [now], and whose
    write the engine stamped as [w] says, makes the note unreadable. *)
Definition deadline (now : time.Time) (w : badger.Write) (n : Note) : time.Time :=
  time.Add (badger.Stamp w) (time.Until now (time.Add (UnlockAt n) retention)).

End BadgerStore.

(** The outcome the specification calls NotFound. *)
Definition NotFound : Note * option error := (zero_Note, Some ErrNotFound).

End storage.

(** The characters of a string are all different from [":"]. *)
Fixpoint colon_free (s : string) : bool :=
  match s with
  | EmptyString => true
  | String c rest => negb (Ascii.eqb c ":") && colon_free rest
  end.

(** The bytes that stand for the JSON text of a note: the note, as a
    tuple, is numbered by its [Countable] code and the code is written in
    binary, one digit per byte. *)
Module bits.

Fixpoint of_pos (p : positive) : list byte :=
  match p with
  | xH => []
  | xO q => 0 :: of_pos q
  | xI q => 1 :: of_pos q
  end.

Fixpoint to_pos (l : list byte) : positive :=
  match l with
  | [] => xH
  | b :: rest => if b =? 0 then xO (to_pos rest) else xI (to_pos rest)
  end.

Definition tuple (n : storage.Note) : string * string * list Z * Z * Z :=
  (storage.ID n, storage.Hash n, storage.Cipher n, storage.Round n, storage.UnlockAt n).

Definition untuple (t : string * string * list Z * Z * Z) : storage.Note :=
  let '(i, h, c, r, u) := t in
  {| storage.ID := i; storage.Hash := h; storage.Cipher := c;
     storage.Round := r; storage.UnlockAt := u |}.

End bits.

(** UTF-8 as [unicode/utf8] decodes it. *)
Module utf8.

Definition between (lo hi b : Z) : bool := (lo <=? b) && (b <=? hi).

(** The number of bytes of the encoding at the head of [p], 0 when no
    well-formed encoding starts there ([DecodeRune] then gives
    [RuneError] with width 1): no overlong forms, no surrogates, nothing
    above U+10FFFF. *)
Definition size (p : list byte) : nat :=
  match p with
  | [] => 0
  | b0 :: rest =>
      if b0 <? 128 then 1
      else if between 194 223 b0 then
        match rest with
        | b1 :: _ => if between 128 191 b1 then 2 else 0
        | _ => 0
        end
      else if between 224 239 b0 then
        match rest with
        | b1 :: b2 :: _ =>
            if between (if b0 =? 224 then 160 else 128)
                       (if b0 =? 237 then 159 else 191) b1
               && between 128 191 b2
            then 3 else 0
        | _ => 0
        end
      else if between 240 244 b0 then
        match rest with
        | b1 :: b2 :: b3 :: _ =>
            if between (if b0 =? 240 then 144 else 128)
                       (if b0 =? 244 then 143 else 191) b1
               && between 128 191 b2 && between 128 191 b3
            then 4 else 0
        | _ => 0
        end
      else 0
  end.

Fixpoint valid_fuel (fuel : nat) (p : list byte) : bool :=
  match fuel, p with
  | _, [] => true
  | O, _ => false
  | S fuel, _ =>
      match size p with
      | O => false
      | k => valid_fuel fuel (skipn k p)
      end
  end.

(** [utf8.ValidString]. *)
Definition ValidString (s : string) : bool :=
  valid_fuel (length (bytes_of_string s)) (bytes_of_string s).

End utf8.

(** Modelled from the spec: [encoding/json] on [Note], a library that is
    not part of the sources, by what its documentation says comes back from
    [Unmarshal] after [Marshal].  Strings are coerced to valid UTF-8, each
    byte that starts no well-formed encoding being replaced by U+FFFD; byte
    slices, unsigned integers and instants come back as they were; an
    instant whose year lies outside 0..9999 is refused by
    [Time.MarshalJSON].  The JSON text itself is not modelled: the bytes of
    [bits] stand for it. *)
Module json.

Fixpoint coerce_fuel (fuel : nat) (p : list byte) : list byte :=
  match fuel, p with
  | _, [] => []
  | O, _ => []
  | S fuel, b :: rest =>
      match utf8.size p with
      | O => [239; 191; 189] ++ coerce_fuel fuel rest
      | k => firstn k p ++ coerce_fuel fuel (skipn k p)
      end
  end.

Definition coerce (s : string) : string :=
  string_of_bytes (coerce_fuel (length (bytes_of_string s)) (bytes_of_string s)).

(** The note that comes back. *)
Definition through (n : storage.Note) : storage.Note :=
  {| storage.ID := coerce (storage.ID n); storage.Hash := coerce (storage.Hash n);
     storage.Cipher := storage.Cipher n; storage.Round := storage.Round n;
     storage.UnlockAt := storage.UnlockAt n |}.

(** From 0000-01-01T00:00:00Z up to, not including, 10000-01-01T00:00:00Z. *)
Definition year_in_range (t : time.Time) : bool :=
  (-62167219200 <=? t / time.Second) && (t / time.Second <? 253402300800).

#[global] Instance codec : storage.Codec := {|
  storage.Marshal n :=
    if year_in_range (storage.UnlockAt n)
    then inl (bits.of_pos (encode (bits.tuple (through n))))
    else inr (Foreign "json: error calling MarshalJSON for type time.Time: Time.MarshalJSON: year outside of range [0,9999]");
  storage.Unmarshal data :=
    match decode (bits.to_pos data) with
    | Some t => inl (bits.untuple t)
    | None => inr (Foreign "invalid character")
    end
|}.

End json.

(* ===================================================================== *)
(** * Concrete inputs *)
(* ===================================================================== *)

(** The clock at 2026-01-01T00:00:00Z, and an unlock time ten minutes later
    (as in the codec's tests), which is the boundary of its round. *)
Definition t_2026 : time.Time := time.Unix 1767225600 0.
Definition unlock_10min : time.Time := time.Add t_2026 (10 * time.Minute).

(** An unlock time at 2400-01-01T00:00:00Z. *)
Definition unlock_2400 : time.Time := time.Unix 13569465600 0.

(** A write that the engine accepts and stamps at [t]. *)
Definition accepted (t : time.Time) : badger.Write :=
  {| badger.Stamp := t; badger.Failure := None |}.

(** A random source that delivers 64 fixed bytes. *)
Definition fixed_reader : io.Reader :=
  {| io.supply := map (fun i => (Z.of_nat i * 37 + 11) mod 256) (seq 0 64);
     io.fault := EOF |}.

Definition secret : list byte := bytes_of_string "This is a secret message".

(** The beacon of the codec's tests (randomness 0, 1, ..., 31), one that
    answers 32 zero bytes, and one that answers no bytes at all. *)
Definition mock_0_to_31 : mockClient := {| randomness := map Z.of_nat (seq 0 32) |}.
Definition mock_zeros : mockClient := {| randomness := repeat 0 32 |}.
Definition mock_empty : mockClient := {| randomness := [] |}.

(** A beacon whose fetch fails. *)
Definition drand_down : drand.Client :=
  {| drand.client := fun _ => ([], Some (Foreign "context deadline exceeded")) |}.

(** What [Encrypt] returns for [secret] at [t_2026], unlocking at
    [unlock_10min] and at [unlock_2400]. *)
Definition near_encrypted : list byte * list byte * Z :=
  Eval vm_compute in
    match crypto.Encrypt t_2026 fixed_reader secret unlock_10min with
    | Returns (blob, hash, round, _) => (blob, hash, round)
    | Panics _ => ([], [], 0)
    end.
Definition near_blob : list byte := fst (fst near_encrypted).
Definition near_hash : list byte := snd (fst near_encrypted).
Definition near_round : Z := snd near_encrypted.

Definition far_encrypted : list byte * list byte * Z :=
  Eval vm_compute in
    match crypto.Encrypt t_2026 fixed_reader secret unlock_2400 with
    | Returns (blob, hash, round, _) => (blob, hash, round)
    | Panics _ => ([], [], 0)
    end.
Definition far_blob : list byte := fst (fst far_encrypted).
Definition far_round : Z := snd far_encrypted.

(** Notes for the store: one as the server makes them, and one whose id
    holds a colon. *)
Definition note_uuid : storage.Note :=
  {| storage.ID := "6f1c2b1e-8f0a-4a57-9d43-2f5b8f7f0c11";
     storage.Hash := "0123456789abcdef0123456789abcdef0123456789abcdef0123456789abcdef";
     storage.Cipher := bytes_of_string "encrypted data";
     storage.Round := 12345;
     storage.UnlockAt := time.Add t_2026 time.Hour |}.

Definition note_colon : storage.Note :=
  {| storage.ID := "a:b"; storage.Hash := "c";
     storage.Cipher := bytes_of_string "encrypted data";
     storage.Round := 12345;
     storage.UnlockAt := time.Add t_2026 time.Hour |}.

(** A note whose id is the single byte 0xff, which is not UTF-8, and what
    the serialization makes of it: the id U+FFFD, bytes 0xef 0xbf 0xbd. *)
Definition note_ff : storage.Note :=
  {| storage.ID := String "255"%char EmptyString;
     storage.Hash := "0123456789abcdef0123456789abcdef0123456789abcdef0123456789abcdef";
     storage.Cipher := bytes_of_string "encrypted data";
     storage.Round := 12345;
     storage.UnlockAt := time.Add t_2026 time.Hour |}.

Definition note_fffd : storage.Note :=
  {| storage.ID := String "239"%char (String "191"%char (String "189"%char EmptyString));
     storage.Hash := "0123456789abcdef0123456789abcdef0123456789abcdef0123456789abcdef";
     storage.Cipher := bytes_of_string "encrypted data";
     storage.Round := 12345;
     storage.UnlockAt := time.Add t_2026 time.Hour |}.

(** A note whose unlock time ends half a microsecond before a full second,
    and an unlock time before the genesis of the beacon, 2000-01-01T00:00:00Z. *)
Definition note_frac : storage.Note :=
  {| storage.ID := "6f1c2b1e-8f0a-4a57-9d43-2f5b8f7f0c11";
     storage.Hash := "0123456789abcdef0123456789abcdef0123456789abcdef0123456789abcdef";
     storage.Cipher := bytes_of_string "encrypted data";
     storage.Round := 12345;
     storage.UnlockAt := time.Unix 1767229200 999999500 |}.

Definition unlock_2000 : time.Time := time.Unix 946684800 0.

(** The round of the specification: the floor of the elapsed seconds over
    the period, [floor((t - genesisTime) / period)]. *)
Definition spec_round (t : time.Time) : Z := (t / time.Second - 1595431050) / 30.

(* ===================================================================== *)
(** * Package [server]: the two handlers *)
(* ===================================================================== *)

Module hex.

Definition hextable : list ascii := list_ascii_of_string "0123456789abcdef".

Definition hexdigit (n : Z) : ascii := nth (Z.to_nat n) hextable "0"%char.

(** [hex.EncodeToString]: two digits per byte, [hextable[v>>4]] then
    [hextable[v&0x0f]]. *)
Fixpoint EncodeToString (src : list byte) : string :=
  match src with
  | [] => EmptyString
  | v :: rest =>
      String (hexdigit (Z.shiftr v 4))
        (String (hexdigit (Z.land v 15)) (EncodeToString rest))
  end.

End hex.

(** [d.Round(m)] of [time.Duration]: to the nearest multiple of [m], halves
    away from zero, saturating. *)
Definition lessThanHalf (x y : Z) : bool :=
  to_uint64 (to_uint64 x + to_uint64 x) <? to_uint64 y.

Definition duration_Round (d m : time.Duration) : time.Duration :=
  if m <=? 0 then d
  else
    let r := Z.rem d m in
    if d <? 0
    then
      let r := to_int64 (- r) in
      if lessThanHalf r m then int64_add d r
      else
        let d1 := int64_add (int64_sub d m) r in
        if d1 <? d then d1 else minInt64
    else
      if lessThanHalf r m then int64_sub d r
      else
        let d1 := int64_sub (int64_add d m) r in
        if d <? d1 then d1 else maxInt64.

Module server.

(** [Server]: the fields the handlers read.  The store is passed to the
    handlers as the map it holds; the logger writes nothing a response
    depends on. *)
Record Server : Type := { baseDomain : string; testMode : bool }.

Definition NewServer (baseDomain : string) : Server :=
  {| baseDomain := baseDomain; testMode := false |}.


Record CreateNoteRequest : Type := { Text : string; UnlockAt : string }.

(** What a handler writes: [http.Error] with a status and a message, the
    201 answer with its URL, the 403 page of a locked note, the 200 page of
    a decrypted note. *)
Inductive response : Type :=
| HttpError (code : Z) (msg : string)
| Created (url : string)
| TooEarlyPage (unlockAt : time.Time) (remaining : time.Duration)
| NotePage (content : string) (unlockTime : time.Time).

Definition StatusCode (r : response) : Z :=
  match r with
  | HttpError code _ => code
  | Created _ => 201
  | TooEarlyPage _ _ => 403
  | NotePage _ _ => 200
  end.

Section Handlers.

Context {codec : storage.Codec}.

(** [handleCreateNote], when the clock reads [now] inside [crypto.Encrypt]
    and [nowSave] inside [Save], the engine does [w] with the write,
    [rand.Reader] is [rnd],
    [time.Parse(time.RFC3339, _)] is [parse], [uuid.New().String()] gives
    [newID], the store holds [db], and decoding the request body gave [body]
    ([None] when it failed).  The answer and the store afterwards. *)
Definition handleCreateNote (s : Server) (now nowSave : time.Time)
  (w : badger.Write) (rnd : io.Reader)
  (parse : string -> time.Time + error) (newID : string)
  (db : gmap string badger.Entry) (body : option CreateNoteRequest)
  : outcome (response * gmap string badger.Entry) :=
  match body with
  | None => Returns (HttpError 400 "Invalid request body", db)
  | Some req =>
  if decide (Text req = EmptyString)
  then Returns (HttpError 400 "Text cannot be empty", db)
  else
  match parse (UnlockAt req) with
  | inr _ =>
      Returns (HttpError 400
        "Invalid unlock_at format. Use RFC3339 format (e.g., 2023-01-01T12:00:00Z)",
        db)
  | inl unlockAt =>
  let encrypted :=
    if testMode s
    then Returns (bytes_of_string (Text req), map Z.of_nat (seq 0 32), 12345, None)
    else crypto.Encrypt now rnd (bytes_of_string (Text req)) unlockAt in
  match encrypted with
  | Panics msg => Panics msg
  | Returns (_, _, _, Some _) => Returns (HttpError 500 "Failed to encrypt note", db)
  | Returns (cipher, hash, round, None) =>
  let id := newID in
  let hashHex := hex.EncodeToString hash in
  let note := {| storage.ID := id; storage.Hash := hashHex;
                 storage.Cipher := cipher; storage.Round := round;
                 storage.UnlockAt := unlockAt |} in
  match storage.Save nowSave w db note with
  | (db', Some _) => Returns (HttpError 500 "Failed to save note", db')
  | (db', None) =>
      Returns (Created (baseDomain s ++ "/note/" ++ id ++ "/" ++ hashHex)%string, db')
  end end end end.

(** [handleGetNote] for the path values [id] and [hash], when the clock
    reads [nowGet] inside the store's [Get], [nowDecrypt] inside
    [crypto.Decrypt] and [nowPage] where the remaining time is computed, and
    [crypto.DefaultClient] holds [DefaultClient]: the beacon rounds asked
    for and the answer. *)
Definition handleGetNote {C : Type} `{Client C} (s : Server) (DefaultClient : C)
  (nowGet nowDecrypt nowPage : time.Time)
  (db : gmap string badger.Entry) (id hash : string)
  : crypto.run response :=
  match storage.Get nowGet db id hash with
  | (_, Some err) =>
      {| crypto.calls := [];
         crypto.result :=
           if decide (err = ErrNotFound)
           then Returns (HttpError 404 "Note not found")
           else Returns (HttpError 500 "Failed to get note") |}
  | (note, None) =>
      let decrypted :=
        if testMode s
        then {| crypto.calls := [];
                crypto.result := Returns (storage.Cipher note, None) |}
        else crypto.Decrypt DefaultClient nowDecrypt
               (storage.Cipher note) (storage.Round note) in
      {| crypto.calls := crypto.calls decrypted;
         crypto.result :=
           match crypto.result decrypted with
           | Panics msg => Panics msg
           | Returns (_, Some decryptErr) =>
               if decide (decryptErr = ErrTooEarly)
               then
                 let remaining := time.Sub (storage.UnlockAt note) nowPage in
                 Returns (TooEarlyPage (storage.UnlockAt note)
                            (duration_Round remaining time.Second))
               else Returns (HttpError 500 "Failed to decrypt note")
           | Returns (plaintext, None) =>
               Returns (NotePage (string_of_bytes plaintext) (storage.UnlockAt note))
           end |}
  end.

End Handlers.

End server.

(** Inputs for the handlers: servers in both modes, a [time.Parse] that
    knows two instants, and a request for a note unlocking ten minutes
    after [t_2026]. *)
Definition srv : server.Server := server.NewServer "http://localhost:8083".

Definition parse_fixed (s : string) : time.Time + error :=
  if decide (s = "2026-01-01T00:10:00Z"%string)
  then inl (time.Add (time.Unix 1767225600 0) (10 * time.Minute))
  else if decide (s = "2000-01-01T00:00:00Z"%string)
  then inl (time.Unix 946684800 0)
  else inr (Foreign "parsing time: cannot parse").

Definition request_10min : server.CreateNoteRequest :=
  {| server.Text := "hello"; server.UnlockAt := "2026-01-01T00:10:00Z" |}.

Definition uuid_1 : string := "6f1c2b1e-8f0a-4a57-9d43-2f5b8f7f0c11".

(** What [Encrypt] returns for the text of [request_10min] at [t_2026], and
    the note [handleCreateNote] then saves. *)
Definition hello_encrypted : list byte * list byte * Z :=
  Eval vm_compute in
    match crypto.Encrypt (time.Unix 1767225600 0) fixed_reader
            (bytes_of_string "hello")
            (time.Add (time.Unix 1767225600 0) (10 * time.Minute)) with
    | Returns (blob, hash, round, _) => (blob, hash, round)
    | Panics _ => ([], [], 0)
    end.

Definition note_hello : storage.Note :=
  {| storage.ID := uuid_1;
     storage.Hash := hex.EncodeToString (snd (fst hello_encrypted));
     storage.Cipher := fst (fst hello_encrypted);
     storage.Round := snd hello_encrypted;
     storage.UnlockAt := time.Add (time.Unix 1767225600 0) (10 * time.Minute) |}.


(** The drand wrapper over the library client of its test, which answers
    the byte 0x7b followed by 31 zeros for every round. *)
Definition mock_drand : drand.Client :=
  {| drand.client := fun _ => (123 :: repeat 0 31, None) |}.

(** Size invariants used below: a key schedule of 4-byte words, and a block
    cipher all of whose outputs are 16 bytes long. *)
Definition words4 (w : list (list Z)) : Prop :=
  Forall (fun x => length x = 4%nat) w.

Definition block16 (b : aes.Block) : Prop :=
  forall src, length (aes.Encrypt b src) = 16%nat.


(* ===================================================================== *)
(** * The primitives on the published test vectors *)
(* ===================================================================== *)

Example sbox_00 : aes.sbox 0 = 99. Proof. reflexivity. Qed.
Example sbox_53 : aes.sbox 83 = 237. Proof. reflexivity. Qed.

(** FIPS 197, appendix C.3 (AES-256) and C.1 (AES-128). *)
Example aes256_fips197 :
  aes.Encrypt
    (block_of_key (unhex "000102030405060708090a0b0c0d0e0f101112131415161718191a1b1c1d1e1f"))
    (unhex "00112233445566778899aabbccddeeff")
  = unhex "8ea2b7ca516745bfeafc49904b496089".
Proof. vm_compute. reflexivity. Qed.

Example aes128_fips197 :
  aes.Encrypt
    (block_of_key (unhex "000102030405060708090a0b0c0d0e0f"))
    (unhex "00112233445566778899aabbccddeeff")
  = unhex "69c4e0d86a7b0430d8cdb78070b4c55a".
Proof. vm_compute. reflexivity. Qed.

(** The GCM specification's test cases 13, 14 and 15 (256-bit keys). *)
Example gcm_test_case_13 :
  cipher.Seal (gcm_of_key (repeat 0 32)) (repeat 0 12) [] []
  = Returns (unhex "530f8afbc74536b9a963b4f1c4cb738b").
Proof. vm_compute. reflexivity. Qed.

Example gcm_test_case_14 :
  cipher.Seal (gcm_of_key (repeat 0 32)) (repeat 0 12) (repeat 0 16) []
  = Returns (unhex "cea7403d4d606b6e074ec5d3baf39d18d0d1c8a799996bf0265b98b5d48ab919").
Proof. vm_compute. reflexivity. Qed.

Example gcm_test_case_15 :
  cipher.Seal
    (gcm_of_key (unhex "feffe9928665731c6d6a8f9467308308feffe9928665731c6d6a8f9467308308"))
    (unhex "cafebabefacedbaddecaf888")
    (unhex "d9313225f88406e5a55909c5aff5269a86a7a9531534f7da2e4c303d8a318a721c3c0c95956809532fcf0e2449a6b525b16aedf5aa0de657ba637b391aafd255")
    []
  = Returns
      (unhex "522dc1f099567d07f47f37a32a84427d643a8cdcbfe5c0c97598a2bd2555d1aa8cb08e48590dbb3da7b08b1056828838c5f61e6393ba7a0abcc9f662898015adb094dac5d93471bdec1a502270e3cc6c").
Proof. vm_compute. reflexivity. Qed.

Example gcm_open_test_case_14 :
  cipher.Open (gcm_of_key (repeat 0 32)) (repeat 0 12)
    (unhex "cea7403d4d606b6e074ec5d3baf39d18d0d1c8a799996bf0265b98b5d48ab919") []
  = Returns (repeat 0 16, None).
Proof. vm_compute. reflexivity. Qed.

(** FIPS 180-4 examples: the empty message, "abc", and the 56-byte
    two-block message. *)
Example sha256_empty :
  sha256.Sum256 []
  = unhex "e3b0c44298fc1c149afbf4c8996fb92427ae41e4649b934ca495991b7852b855".
Proof. vm_compute. reflexivity. Qed.

Example sha256_abc :
  sha256.Sum256 (bytes_of_string "abc")
  = unhex "ba7816bf8f01cfea414140de5dae2223b00361a396177a9cb410ff61f20015ad".
Proof. vm_compute. reflexivity. Qed.

Example sha256_two_blocks :
  sha256.Sum256
    (bytes_of_string "abcdbcdecdefdefgefghfghighijhijkijkljklmklmnlmnomnopnopq")
  = unhex "248d6a61d20638b8e5c026930c3e6039a33ce45964ff2167f6ecedd419db06c1".
Proof. vm_compute. reflexivity. Qed.

(** UTF-8: the euro sign and a four-byte rune are well formed; an overlong
    form, a surrogate, a rune above U+10FFFF, a lone continuation byte and a
    truncated rune are not; and the coercion replaces each offending byte
    by U+FFFD. *)
Example utf8_well_formed :
  map (fun p => utf8.valid_fuel (length p) p)
      [[226; 130; 172]; [240; 159; 152; 128]; [104; 105]; []]
  = [true; true; true; true].
Proof. vm_compute. reflexivity. Qed.

Example utf8_ill_formed :
  map (fun p => utf8.valid_fuel (length p) p)
      [[192; 128]; [237; 160; 128]; [244; 144; 128; 128]; [128]; [226; 130]; [255]]
  = [false; false; false; false; false; false].
Proof. vm_compute. reflexivity. Qed.

Example json_coerce_replaces :
  bytes_of_string (json.coerce (string_of_bytes [97; 255; 226; 130; 98]))
  = [97; 239; 191; 189; 239; 191; 189; 239; 191; 189; 98].
Proof. vm_compute. reflexivity. Qed.

(** The binary code that stands for the JSON text decodes to itself. *)
Lemma to_of_pos p : bits.to_pos (bits.of_pos p) = p.
Proof. induction p; simpl; congruence. Qed.

(** A valid string is left alone. *)
Lemma coerce_fuel_valid (fuel : nat) :
  forall p, utf8.valid_fuel fuel p = true -> json.coerce_fuel fuel p = p.
Proof.
  induction fuel as [|fuel IH]; intros [|b rest]; try reflexivity; try discriminate.
  cbn [utf8.valid_fuel json.coerce_fuel].
  destruct (utf8.size (b :: rest)) as [|k]; [discriminate|].
  intros Hv. rewrite (IH _ Hv). apply firstn_skipn.
Qed.

Lemma string_of_bytes_of_string (s : string) :
  string_of_bytes (bytes_of_string s) = s.
Proof.
  unfold string_of_bytes, bytes_of_string. rewrite map_map.
  rewrite (map_ext _ (fun ch => ch)), map_id.
  - apply string_of_list_ascii_of_string.
  - intros ch. now rewrite Nat2Z.id, ascii_nat_embedding.
Qed.

Lemma coerce_valid (s : string) : utf8.ValidString s = true -> json.coerce s = s.
Proof.
  unfold utf8.ValidString, json.coerce. intros Hv.
  rewrite (coerce_fuel_valid _ _ Hv). apply string_of_bytes_of_string.
Qed.

(** What [Unmarshal] gives for what [Marshal] wrote. *)
Lemma Unmarshal_Marshal (n : storage.Note) (data : list byte) :
  storage.Marshal n = inl data -> storage.Unmarshal data = inl (json.through n).
Proof.
  cbn [storage.Marshal storage.Unmarshal json.codec].
  destruct (json.year_in_range _); [|discriminate].
  intros [= <-]. rewrite to_of_pos, decode_encode. reflexivity.
Qed.

(** A note whose id and fingerprint are valid UTF-8 comes back as it was. *)
Lemma json_roundtrips (n : storage.Note) :
  utf8.ValidString (storage.ID n) = true ->
  utf8.ValidString (storage.Hash n) = true ->
  storage.roundtrips json.codec n.
Proof.
  intros Hid Hhash data Hm. rewrite (Unmarshal_Marshal n data Hm).
  unfold json.through. rewrite (coerce_valid _ Hid), (coerce_valid _ Hhash).
  now destruct n.
Qed.


(* ===================================================================== *)
(** * Facts about the byte and integer helpers *)
(* ===================================================================== *)

Section Helpers.

Lemma to_int64_range x : minInt64 <= to_int64 x <= maxInt64.
Proof.
  unfold to_int64, minInt64, maxInt64.
  pose proof (Z.mod_pos_bound (x + 2 ^ 63) (2 ^ 64) ltac:(lia)). lia.
Qed.

Lemma to_int64_id x : minInt64 <= x <= maxInt64 -> to_int64 x = x.
Proof.
  unfold to_int64, minInt64, maxInt64. intros Hx.
  rewrite Z.mod_small by lia. lia.
Qed.

Lemma to_int64_le x : 0 <= x -> to_int64 x <= x.
Proof.
  unfold to_int64. intros Hx.
  pose proof (Z.mod_le (x + 2 ^ 63) (2 ^ 64) ltac:(lia) ltac:(lia)). lia.
Qed.

(** Conversion and multiplication commute with the wrap-around. *)
Lemma to_int64_mul_l a b : to_int64 (to_int64 a * b) = to_int64 (a * b).
Proof.
  unfold to_int64. f_equal.
  rewrite <- (Zplus_mod_idemp_l (_ * b)), <- (Zplus_mod_idemp_l (a * b)).
  f_equal. f_equal.
  rewrite <- (Zmult_mod_idemp_l (_ - _)).
  rewrite <- Zminus_mod_idemp_l, Z.mod_mod by lia.
  rewrite Zminus_mod_idemp_l.
  replace (a + 2 ^ 63 - 2 ^ 63) with a by lia.
  now rewrite Zmult_mod_idemp_l.
Qed.

Lemma to_uint64_id x : 0 <= x < 2 ^ 64 -> to_uint64 x = x.
Proof. intros. unfold to_uint64. now apply Z.mod_small. Qed.

Lemma length_Z_to_be n x : length (Z_to_be n x) = n.
Proof. induction n; simpl; auto. Qed.

Lemma length_xor_bytes a b :
  length (xor_bytes a b) = Nat.min (length a) (length b).
Proof. unfold xor_bytes. now rewrite length_map, length_combine. Qed.

Lemma length_make n : length (make n) = n.
Proof. apply repeat_length. Qed.

Lemma xor_bytes_involutive a m :
  (length a <= length m)%nat -> xor_bytes (xor_bytes a m) m = a.
Proof.
  revert m. induction a as [|x a IH]; intros [|y m] Hlen; simpl in *; try lia; auto.
  unfold xor_bytes in *. simpl. f_equal.
  - rewrite Z.lxor_assoc, Z.lxor_nilpotent. apply Z.lxor_0_r.
  - apply IH. lia.
Qed.

Lemma concat_chunks_fuel {A} (n : nat) :
  (0 < n)%nat ->
  forall fuel (l : list A), (length l <= fuel)%nat ->
    concat (chunks_fuel fuel n l) = l.
Proof.
  intros Hn. induction fuel as [|fuel IH]; intros l Hl.
  - destruct l; simpl in *; [reflexivity | lia].
  - destruct l as [|x l]; [reflexivity|].
    cbn [chunks_fuel concat]. rewrite IH.
    + apply firstn_skipn.
    + rewrite length_skipn. simpl in *. lia.
Qed.

Lemma concat_chunks {A} (n : nat) (l : list A) :
  (0 < n)%nat -> concat (chunks n l) = l.
Proof. intros. now apply concat_chunks_fuel. Qed.

Lemma chunks_fuel_bounded {A} (n : nat) :
  forall fuel (l : list A),
    Forall (fun c => (length c <= n)%nat) (chunks_fuel fuel n l).
Proof.
  induction fuel as [|fuel IH]; intros l.
  - destruct l; constructor.
  - destruct l as [|x l]; [constructor|].
    cbn [chunks_fuel]. constructor; [|apply IH].
    rewrite length_firstn. lia.
Qed.

(** A list of [k * n] elements splits into [k] chunks of exactly [n]. *)
Lemma chunks_fuel_exact {A} (n : nat) :
  (0 < n)%nat ->
  forall k fuel (l : list A),
    length l = (k * n)%nat -> (length l <= fuel)%nat ->
    Forall (fun c => length c = n) (chunks_fuel fuel n l)
    /\ length (chunks_fuel fuel n l) = k.
Proof.
  intros Hn. induction k as [|k IH]; intros fuel l Hl Hf.
  - destruct l; [|simpl in Hl; lia].
    destruct fuel; simpl; split; auto.
  - destruct l as [|x l]; [simpl in Hl; lia|].
    destruct fuel as [|fuel]; [simpl in Hf; lia|].
    cbn [chunks_fuel].
    destruct (IH fuel (skipn n (x :: l))) as [Hall Hlen].
    + rewrite length_skipn, Hl. simpl. lia.
    + rewrite length_skipn. simpl in *. lia.
    + split; [constructor; auto | simpl; now rewrite Hlen].
      rewrite length_firstn, Hl. simpl. lia.
Qed.

Lemma copy_at_fill (pre s : list byte) (m : nat) :
  copy_at (pre ++ repeat 0 (length s + m)) (length pre) s
  = (pre ++ s) ++ repeat 0 m.
Proof.
  unfold copy_at.
  rewrite take_app_length, length_app, repeat_length.
  replace (length pre + (length s + m) - length pre)%nat
    with (length s + m)%nat by lia.
  rewrite (take_ge s) by lia.
  rewrite drop_app_add, repeat_app.
  rewrite drop_app_length' by now rewrite repeat_length.
  now rewrite app_assoc.
Qed.

(** The three [copy] calls of [Encrypt] lay the parts out one after the
    other. *)
Lemma copy_at_make_3 (a b c : list byte) :
  copy_at
    (copy_at (copy_at (make (length a + length b + length c)) 0 a) (length a) b)
    (length a + length b) c
  = a ++ b ++ c.
Proof.
  unfold make.
  rewrite <- Nat.add_assoc.
  pose proof (copy_at_fill [] a (length b + length c)) as H1.
  cbn [app length] in H1. rewrite H1.
  rewrite copy_at_fill.
  pose proof (copy_at_fill (a ++ b) c 0) as H3.
  rewrite length_app, Nat.add_0_r in H3. rewrite H3.
  cbn [repeat]. now rewrite app_nil_r, <- app_assoc.
Qed.

End Helpers.

(* ===================================================================== *)
(** * Sizes of what the primitives produce *)
(* ===================================================================== *)

Section Sizes.

Lemma words4_nth w i : words4 w -> (i < length w)%nat -> length (nth i w []) = 4%nat.
Proof.
  intros Hw Hi. unfold words4 in Hw. rewrite Forall_forall in Hw.
  apply Hw. apply list_elem_of_In. now apply nth_In.
Qed.

Lemma length_RotWord w : length (aes.RotWord w) = length w.
Proof. destruct w; simpl; auto. rewrite length_app. simpl. lia. Qed.

(** Key expansion appends one 4-byte word per step. *)
Lemma expand_fuel_words (Nk : nat) :
  (0 < Nk)%nat ->
  forall fuel i w,
    words4 w -> i = length w -> (Nk <= i)%nat ->
    words4 (aes.expand_fuel fuel Nk i w)
    /\ length (aes.expand_fuel fuel Nk i w) = (length w + fuel)%nat.
Proof.
  intros HNk. induction fuel as [|fuel IH]; intros i w Hw Hi Hle.
  - simpl. split; [assumption | lia].
  - cbn [aes.expand_fuel].
    assert (Hprev : length (nth (i - 1) w []) = 4%nat)
      by (apply words4_nth; [assumption | lia]).
    assert (Hback : length (nth (i - Nk) w []) = 4%nat)
      by (apply words4_nth; [assumption | lia]).
    match goal with
    | |- context [aes.expand_fuel fuel Nk (S i) (w ++ [?x])] => set (nw := x)
    end.
    assert (Hx : length nw = 4%nat).
    { subst nw. rewrite length_xor_bytes, Hback.
      destruct (i mod Nk =? 0)%nat.
      - rewrite length_xor_bytes. unfold aes.SubWord.
        rewrite length_map, length_RotWord, Hprev. reflexivity.
      - destruct ((6 <? Nk)%nat && (i mod Nk =? 4)%nat).
        + unfold aes.SubWord. rewrite length_map, Hprev. reflexivity.
        + rewrite Hprev. reflexivity. }
    destruct (IH (S i) (w ++ [nw])) as [H1 H2].
    + apply Forall_app. split; [assumption|]. constructor; [exact Hx | constructor].
    + rewrite length_app. simpl. lia.
    + lia.
    + split; [exact H1|]. rewrite H2, length_app. simpl. lia.
Qed.

Lemma KeyExpansion_words key :
  length key = 32%nat ->
  words4 (aes.KeyExpansion key) /\ length (aes.KeyExpansion key) = 60%nat.
Proof.
  intros Hk. unfold aes.KeyExpansion. rewrite Hk.
  change (32 / 4)%nat with 8%nat. change (4 * (8 + 6 + 1) - 8)%nat with 52%nat.
  destruct (chunks_fuel_exact (A := Z) 4 ltac:(lia) 8 (length key) key) as [Hall Hlen];
    [rewrite Hk; reflexivity | lia |].
  fold (chunks 4 key) in Hall, Hlen.
  destruct (expand_fuel_words 8 ltac:(lia) 52 8 (chunks 4 key)) as [H1 H2];
    [exact Hall | now rewrite Hlen | lia |].
  split; [exact H1|]. rewrite H2, Hlen. reflexivity.
Qed.

Lemma length_round_key w r :
  words4 w -> (4 * r + 4 <= length w)%nat ->
  length (concat (aes.round_key w r)) = 16%nat.
Proof.
  intros Hw Hr. unfold aes.round_key.
  assert (Hl : length (take 4 (drop (4 * r) w)) = 4%nat)
    by (rewrite length_take, length_drop; lia).
  assert (Hall : words4 (take 4 (drop (4 * r) w))).
  { unfold words4 in *. apply Forall_take, Forall_drop. exact Hw. }
  destruct (take 4 (drop (4 * r) w)) as [|a [|b [|c [|d [|]]]]];
    simpl in Hl; try lia.
  inversion Hall as [|? ? Ha Hall1]; subst.
  inversion Hall1 as [|? ? Hb Hall2]; subst.
  inversion Hall2 as [|? ? Hc Hall3]; subst.
  inversion Hall3 as [|? ? Hd _]; subst.
  simpl. rewrite !length_app, Ha, Hb, Hc, Hd. reflexivity.
Qed.

Lemma NewCipher_32 key :
  length key = 32%nat ->
  aes.NewCipher key = inl {| aes.schedule := aes.KeyExpansion key; aes.Nr := 14 |}.
Proof. intros Hk. unfold aes.NewCipher. rewrite Hk. reflexivity. Qed.

(** The block cipher under a 32-byte key always writes 16 bytes. *)
Lemma length_aes_Encrypt key src :
  length key = 32%nat ->
  length (aes.Encrypt {| aes.schedule := aes.KeyExpansion key; aes.Nr := 14 |} src)
  = 16%nat.
Proof.
  intros Hk. destruct (KeyExpansion_words key Hk) as [Hw Hlen].
  unfold aes.Encrypt, aes.AddRoundKey. cbn [aes.schedule aes.Nr].
  rewrite length_xor_bytes, length_round_key by (auto; lia).
  unfold aes.ShiftRows. rewrite length_map, length_seq. reflexivity.
Qed.

Lemma length_counterCrypt_blocks b nonce :
  block16 b ->
  forall blocks ctr,
    Forall (fun c => (length c <= 16)%nat) blocks ->
    length (cipher.counterCrypt_blocks b nonce ctr blocks)
    = length (concat blocks).
Proof.
  intros Hb. induction blocks as [|blk rest IH]; intros ctr Hall; [reflexivity|].
  inversion Hall as [|? ? Hblk Hrest]; subst.
  cbn [cipher.counterCrypt_blocks concat].
  rewrite !length_app, length_xor_bytes, Hb, IH by assumption. lia.
Qed.

Lemma length_counterCrypt b nonce ctr data :
  block16 b -> length (cipher.counterCrypt b nonce ctr data) = length data.
Proof.
  intros Hb. unfold cipher.counterCrypt.
  rewrite length_counterCrypt_blocks by (auto; apply chunks_fuel_bounded).
  now rewrite concat_chunks by lia.
Qed.

Lemma length_auth b nonce ct ad :
  block16 b -> length (cipher.auth b nonce ct ad) = 16%nat.
Proof.
  intros Hb. unfold cipher.auth.
  now rewrite length_xor_bytes, length_Z_to_be, Hb.
Qed.

(** A sealed message is the plaintext's length plus the 16-byte tag. *)
Lemma length_Seal g nonce plaintext ad sealed :
  block16 (cipher.block g) ->
  cipher.Seal g nonce plaintext ad = Returns sealed ->
  length sealed = (length plaintext + 16)%nat.
Proof.
  intros Hb. unfold cipher.Seal.
  destruct (negb _); [discriminate|].
  destruct (_ <? _); [discriminate|].
  intros [= <-].
  now rewrite length_app, length_counterCrypt, length_auth.
Qed.

Lemma length_Sum256 data : length (sha256.Sum256 data) = 32%nat.
Proof.
  unfold sha256.Sum256, sha256.digest.
  now rewrite !length_app, !length_Z_to_be.
Qed.

End Sizes.

(* ===================================================================== *)
(** * The codec: what [Encrypt] returns *)
(* ===================================================================== *)

Section EncryptFacts.

Variables (now : time.Time) (rnd : io.Reader).
Variables (plaintext : list byte) (unlockAt : time.Time).

(** Every way [Encrypt] can end, by the test on the rounds and the two
    draws from the random source. *)
Lemma Encrypt_cases :
  let key := take 32 (io.supply rnd) in
  let nonce := take 12 (drop 32 (io.supply rnd)) in
  crypto.Encrypt now rnd plaintext unlockAt =
    if crypto.round_of unlockAt <=? crypto.round_of now
    then Returns ([], [], 0, Some crypto.InvalidUnlockTime)
    else if (length (io.supply rnd) <? 32)%nat
    then Returns ([], [], 0,
                  Some (Wrapf "failed to generate random key: "
                          (io.short_read (length (io.supply rnd)) (io.fault rnd))))
    else if (length (io.supply rnd) <? 44)%nat
    then Returns ([], [], 0,
                  Some (Wrapf "failed to generate nonce: "
                          (io.short_read (length (io.supply rnd) - 32) (io.fault rnd))))
    else match cipher.Seal (gcm_of_key key) nonce plaintext [] with
         | Panics msg => Panics msg
         | Returns sealed =>
             Returns (key ++ nonce ++ sealed,
                      sha256.Sum256 (key ++ nonce ++ sealed),
                      crypto.round_of unlockAt, None)
         end.
Proof.
  intros key nonce. unfold crypto.Encrypt.
  change (to_uint64 (int64_div (int64_sub (time.UnixSeconds now) 1595431050) 30))
    with (crypto.round_of now).
  change (to_uint64 (int64_div (int64_sub (time.UnixSeconds unlockAt) 1595431050) 30))
    with (crypto.round_of unlockAt).
  destruct (crypto.round_of unlockAt <=? crypto.round_of now); [reflexivity|].
  unfold io.ReadFull.
  destruct (Nat.ltb_spec (length (io.supply rnd)) 32) as [Hs|Hs].
  { rewrite (proj2 (Nat.leb_gt _ _)) by lia. reflexivity. }
  rewrite (proj2 (Nat.leb_le _ _)) by lia.
  assert (Hkey : length key = 32%nat) by (subst key; rewrite length_take; lia).
  fold key. rewrite (NewCipher_32 key Hkey).
  cbn [io.supply io.fault].
  destruct (Nat.ltb_spec (length (io.supply rnd)) 44) as [Hn|Hn].
  { rewrite (proj2 (Nat.leb_gt _ _)) by (rewrite length_drop; lia).
    now rewrite length_drop. }
  rewrite (proj2 (Nat.leb_le _ _)) by (rewrite length_drop; lia).
  fold nonce.
  unfold cipher.NewGCM. cbn [Nat.eqb aes.BlockSize cipher.gcmBlockSize].
  unfold gcm_of_key, block_of_key. rewrite (NewCipher_32 key Hkey).
  destruct (cipher.Seal _ nonce plaintext []) as [sealed|msg]; [|reflexivity].
  now rewrite copy_at_make_3.
Qed.

(** The block cipher [Encrypt] builds from its 32-byte key. *)
Lemma block16_gcm_of_key key :
  length key = 32%nat -> block16 (cipher.block (gcm_of_key key)).
Proof.
  intros Hk src. unfold gcm_of_key, block_of_key. cbn [cipher.block].
  rewrite (NewCipher_32 key Hk). now apply length_aes_Encrypt.
Qed.

(** A successful [Encrypt] returns key, nonce and sealed plaintext packed
    in this order, the digest of the pack, and the unlock round. *)
Lemma Encrypt_success blob hash round :
  crypto.Encrypt now rnd plaintext unlockAt = Returns (blob, hash, round, None) ->
  exists key nonce sealed,
    length key = 32%nat /\ length nonce = 12%nat
    /\ cipher.Seal (gcm_of_key key) nonce plaintext [] = Returns sealed
    /\ blob = key ++ nonce ++ sealed
    /\ hash = sha256.Sum256 blob
    /\ round = crypto.round_of unlockAt
    /\ crypto.round_of now < round.
Proof.
  rewrite Encrypt_cases.
  destruct (Z.leb_spec (crypto.round_of unlockAt) (crypto.round_of now)); [discriminate|].
  destruct (Nat.ltb_spec (length (io.supply rnd)) 32); [discriminate|].
  destruct (Nat.ltb_spec (length (io.supply rnd)) 44); [discriminate|].
  destruct (cipher.Seal _ _ plaintext []) as [sealed|msg] eqn:Hseal; [|discriminate].
  intros [= <- <- <-].
  exists (take 32 (io.supply rnd)), (take 12 (drop 32 (io.supply rnd))), sealed.
  repeat split; auto.
  - rewrite length_take. lia.
  - rewrite length_take, length_drop. lia.
Qed.

End EncryptFacts.

(** On instants from the genesis on, the round the code computes is the
    floor of the elapsed seconds over the period. *)
Lemma round_of_floor (t : time.Time) :
  time.Unix 1595431050 0 <= t -> t / time.Second <= maxInt64 ->
  crypto.round_of t = (t / time.Second - 1595431050) / 30.
Proof.
  unfold time.Unix, time.Second, maxInt64. intros Hg Hmax.
  assert (Hs : 1595431050 <= t / 1000000000).
  { apply Z.div_le_lower_bound; lia. }
  unfold crypto.round_of, time.UnixSeconds, int64_div, int64_sub, time.Second.
  rewrite (to_int64_id (t / 1000000000)) by (unfold minInt64, maxInt64; lia).
  rewrite (to_int64_id (_ - _)) by (unfold minInt64, maxInt64; lia).
  rewrite Z.quot_div_nonneg by lia.
  assert (0 <= (t / 1000000000 - 1595431050) / 30 <= t / 1000000000).
  { split; [apply Z.div_pos; lia|].
    apply Z.div_le_upper_bound; lia. }
  rewrite to_int64_id by (unfold minInt64, maxInt64; lia).
  apply to_uint64_id. lia.
Qed.

(** Before the genesis the quotient is negative and its conversion to
    [uint64] is a round far in the future: for the clock at [t_2026], an
    [unlockAt] at 2000-01-01T00:00:00Z maps to a round above the current
    one. *)
Remark round_of_before_genesis :
  crypto.round_of (time.Unix 946684800 0) = 2 ^ 64 - 21624875
  /\ crypto.round_of t_2026 < crypto.round_of (time.Unix 946684800 0).
Proof. split; vm_compute; reflexivity. Qed.

(** C4: the claim fails.  With the clock at 2026-01-01T00:00:00Z and
    [unlockAt] at 2000-01-01T00:00:00Z, twenty years before the genesis of
    the beacon, the round of the specification is negative, below the
    current one, yet [Encrypt] succeeds: the negative quotient, converted to
    [uint64], is the round 2^64 - 21624875. *)
Theorem encrypt_accepts_unlock_before_genesis :
  unlock_2000 < t_2026
  /\ spec_round unlock_2000 = -21624875
  /\ spec_round unlock_2000 <= spec_round t_2026
  /\ exists blob hash,
       crypto.Encrypt t_2026 fixed_reader secret unlock_2000
       = Returns (blob, hash, 2 ^ 64 - 21624875, None).
Proof.
  split; [vm_compute; reflexivity|].
  split; [vm_compute; reflexivity|].
  split; [vm_compute; discriminate|].
  rewrite Encrypt_cases.
  change (crypto.round_of unlock_2000 <=? crypto.round_of t_2026) with false.
  change (length (io.supply fixed_reader) <? 32)%nat with false.
  change (length (io.supply fixed_reader) <? 44)%nat with false.
  cbn iota.
  destruct (cipher.Seal _ _ secret []) as [sealed|msg] eqn:Hseal.
  - eexists _, _. reflexivity.
  - exfalso. revert Hseal. vm_compute. discriminate.
Qed.

(** X28: what does hold of C4, with the rounds as the code computes them
    (the truncated quotient converted to [uint64], which is the floor of
    the specification only from the genesis on).  [Encrypt] fails with the
    invalid-unlock-time error exactly when the round it computes from
    [unlockAt] is at most the round it computes from the clock, and then it
    returns no blob, no fingerprint and round 0. *)
Theorem encrypt_invalid_unlock_time
  (now : time.Time) (rnd : io.Reader) (plaintext : list byte) (unlockAt : time.Time) :
  ((exists blob hash round,
       crypto.Encrypt now rnd plaintext unlockAt
       = Returns (blob, hash, round, Some crypto.InvalidUnlockTime))
   <-> crypto.round_of unlockAt <= crypto.round_of now)
  /\ (crypto.round_of unlockAt <= crypto.round_of now ->
      crypto.Encrypt now rnd plaintext unlockAt
      = Returns ([], [], 0, Some crypto.InvalidUnlockTime)).
Proof.
  rewrite Encrypt_cases.
  destruct (Z.leb_spec (crypto.round_of unlockAt) (crypto.round_of now)) as [Hle|Hgt].
  - split; [|reflexivity]. split; [intros _; exact Hle|]. intros _. eauto.
  - split; [|lia]. split; [|lia].
    intros (blob & hash & round & Hret). exfalso.
    destruct (_ <? 32)%nat; [discriminate|].
    destruct (_ <? 44)%nat; [discriminate|].
    destruct (cipher.Seal _ _ _ _); discriminate.
Qed.

(** C7: the fingerprint of a successful [Encrypt] is the SHA-256 digest of
    the returned blob, 32 bytes long. *)
Theorem encrypt_fingerprint_is_sha256
  (now : time.Time) (rnd : io.Reader) (plaintext : list byte) (unlockAt : time.Time)
  (blob hash : list byte) (round : Z) :
  crypto.Encrypt now rnd plaintext unlockAt = Returns (blob, hash, round, None) ->
  hash = sha256.Sum256 blob /\ length hash = 32%nat.
Proof.
  intros Hret.
  destruct (Encrypt_success _ _ _ _ _ _ _ Hret)
    as (key & nonce & sealed & _ & _ & _ & _ & Hhash & _).
  split; [exact Hhash|]. rewrite Hhash. apply length_Sum256.
Qed.

(** C10: the blob of a successful [Encrypt] is 60 bytes longer than the
    plaintext, so it passes the length test of [Decrypt]. *)
Theorem encrypt_blob_length
  (now : time.Time) (rnd : io.Reader) (plaintext : list byte) (unlockAt : time.Time)
  (blob hash : list byte) (round : Z) :
  crypto.Encrypt now rnd plaintext unlockAt = Returns (blob, hash, round, None) ->
  length blob = (length plaintext + 60)%nat
  /\ (60 <= length blob)%nat
  /\ (length blob <? 44)%nat = false.
Proof.
  intros Hret.
  destruct (Encrypt_success _ _ _ _ _ _ _ Hret)
    as (key & nonce & sealed & Hkey & Hnonce & Hseal & Hblob & _).
  apply length_Seal in Hseal; [|now apply block16_gcm_of_key].
  assert (Hlen : length blob = (length plaintext + 60)%nat).
  { rewrite Hblob, !length_app, Hkey, Hnonce, Hseal. lia. }
  split; [exact Hlen|]. split; [lia|]. apply Nat.ltb_ge. lia.
Qed.


(* ===================================================================== *)
(** * The codec: what [Decrypt] returns *)
(* ===================================================================== *)

(** The unlock instant the code computes never lies after the round's
    boundary: the nanosecond offset wraps around in [int64], and wrapping a
    non-negative number only makes it smaller. *)
Lemma unlock_time_le_boundary (round : Z) :
  0 <= round -> crypto.unlock_time round <= crypto.round_boundary round.
Proof.
  intros Hr. unfold crypto.unlock_time, crypto.round_boundary, time.Add, int64_mul.
  rewrite to_int64_mul_l.
  pose proof (to_int64_le (round * (30 * time.Second))
                ltac:(unfold time.Second; lia)).
  lia.
Qed.

(** Up to round 307445734 (November 2312) nothing wraps. *)
Lemma unlock_time_exact (round : Z) :
  0 <= round <= 307445734 ->
  crypto.unlock_time round = crypto.round_boundary round.
Proof.
  intros Hr. unfold crypto.unlock_time, crypto.round_boundary, time.Add, int64_mul.
  rewrite to_int64_mul_l, to_int64_id; [reflexivity|].
  unfold minInt64, maxInt64, time.Second. lia.
Qed.

(** Unfolds [Decrypt] and names the unlock instant it computes. *)
Ltac unfold_Decrypt :=
  unfold crypto.Decrypt;
  match goal with
  | |- context [time.Add (time.Unix 1595431050 0)
                  (int64_mul (to_int64 ?r) (30 * time.Second))] =>
      change (time.Add (time.Unix 1595431050 0)
                (int64_mul (to_int64 r) (30 * time.Second)))
        with (crypto.unlock_time r)
  end.

Section DecryptFacts.

Context {C : Type} `{Client C}.
Variables (DefaultClient : C) (now : time.Time).
Variables (ciphertext : list byte) (round : Z).

(** Before the unlock instant the code computes: [ErrTooEarly], and the
    beacon client is not called. *)
Lemma Decrypt_before :
  time.Before now (crypto.unlock_time round) = true ->
  crypto.Decrypt DefaultClient now ciphertext round
  = {| crypto.calls := []; crypto.result := Returns ([], Some ErrTooEarly) |}.
Proof.
  intros Hb. unfold_Decrypt.
  now rewrite Hb.
Qed.

(** From the unlock instant on, a failed fetch ends the call. *)
Lemma Decrypt_fetch_failed (bytes : list byte) (err : error) :
  time.Before now (crypto.unlock_time round) = false ->
  FetchRandomness DefaultClient round = (bytes, Some err) ->
  crypto.Decrypt DefaultClient now ciphertext round
  = {| crypto.calls := [round];
       crypto.result := Returns ([], Some (crypto.BeaconUnavailable err)) |}.
Proof.
  intros Hb Hf. unfold_Decrypt.
  now rewrite Hb, Hf.
Qed.

(** X4: past the unlock instant and after a successful fetch, a blob shorter
    than 44 bytes is refused as malformed, whatever the randomness is: the
    length test comes before the key derivation. *)
Lemma Decrypt_short_blob (bytes : list byte) :
  time.Before now (crypto.unlock_time round) = false ->
  FetchRandomness DefaultClient round = (bytes, None) ->
  (length ciphertext < 44)%nat ->
  crypto.Decrypt DefaultClient now ciphertext round
  = {| crypto.calls := [round];
       crypto.result := Returns ([], Some crypto.MalformedCiphertext) |}.
Proof.
  intros Hb Hf Hlen. unfold_Decrypt.
  rewrite Hb, Hf. now rewrite (proj2 (Nat.ltb_lt _ _) Hlen).
Qed.

(** With an empty randomness the first turn of the key loop divides by
    zero: the call panics. *)
Lemma Decrypt_empty_randomness :
  time.Before now (crypto.unlock_time round) = false ->
  FetchRandomness DefaultClient round = ([], None) ->
  (44 <= length ciphertext)%nat ->
  crypto.Decrypt DefaultClient now ciphertext round
  = {| crypto.calls := [round];
       crypto.result := Panics "runtime error: integer divide by zero" |}.
Proof.
  intros Hb Hf Hlen. unfold_Decrypt.
  rewrite Hb, Hf. now rewrite (proj2 (Nat.ltb_ge _ _) Hlen).
Qed.

(** X1: strictly before the boundary of a round up to 307445734, [Decrypt]
    fails with [ErrTooEarly] whatever the beacon client is, and does not
    call it. *)
Lemma Decrypt_too_early_in_range :
  0 <= round <= 307445734 ->
  now < crypto.round_boundary round ->
  crypto.Decrypt DefaultClient now ciphertext round
  = {| crypto.calls := []; crypto.result := Returns ([], Some crypto.TooEarly) |}.
Proof.
  intros Hr Hnow. apply Decrypt_before.
  rewrite unlock_time_exact by assumption.
  unfold time.Before. now apply Z.ltb_lt.
Qed.

End DecryptFacts.

(** C8: at or past the round's boundary, a failed fetch makes [Decrypt] fail
    with the beacon-unavailable error, which wraps the client's error and is
    not the too-early error. *)
Theorem decrypt_beacon_unavailable
  {C : Type} `{Client C} (DefaultClient : C) (now : time.Time)
  (ciphertext : list byte) (round : Z) (bytes : list byte) (err : error) :
  0 <= round ->
  crypto.round_boundary round <= now ->
  FetchRandomness DefaultClient round = (bytes, Some err) ->
  crypto.Decrypt DefaultClient now ciphertext round
  = {| crypto.calls := [round];
       crypto.result := Returns ([], Some (crypto.BeaconUnavailable err)) |}
  /\ crypto.BeaconUnavailable err <> crypto.TooEarly.
Proof.
  intros Hr Hnow Hf. split; [|discriminate].
  apply (Decrypt_fetch_failed _ _ _ _ bytes); [|exact Hf].
  unfold time.Before. apply Z.ltb_ge.
  pose proof (unlock_time_le_boundary round Hr). lia.
Qed.

(** C1, at concrete inputs: [Encrypt] seals under the drawn key, [Decrypt]
    opens under that key XOR the randomness; with the randomness of the
    codec's tests the tag does not verify and no plaintext comes back. *)
Theorem decrypt_of_encrypt_fails :
  crypto.Encrypt t_2026 fixed_reader secret unlock_10min
  = Returns (near_blob, near_hash, near_round, None)
  /\ crypto.round_of t_2026 < near_round
  /\ crypto.round_boundary near_round <= unlock_10min
  /\ crypto.Decrypt mock_0_to_31 unlock_10min near_blob near_round
     = {| crypto.calls := [near_round];
          crypto.result :=
            Returns ([], Some (crypto.DecryptionFailed cipher.errOpen)) |}.
Proof.
  split; [vm_compute; reflexivity|].
  split; [vm_compute; reflexivity|].
  split; [vm_compute; discriminate|].
  vm_compute. reflexivity.
Qed.

(** C2, at concrete inputs: past the unlock instant, with a beacon client
    that returns a zero-length randomness and a blob made by [Encrypt],
    [Decrypt] does not return an error: it panics. *)
Theorem decrypt_empty_randomness_panics :
  crypto.round_boundary near_round <= unlock_10min
  /\ FetchRandomness mock_empty near_round = ([], None)
  /\ crypto.Decrypt mock_empty unlock_10min near_blob near_round
     = {| crypto.calls := [near_round];
          crypto.result := Panics "runtime error: integer divide by zero" |}.
Proof.
  split; [vm_compute; discriminate|].
  split; [reflexivity|].
  vm_compute. reflexivity.
Qed.

(** C3, at concrete inputs: for a note locked until the year 2400 the
    nanosecond offset of the round overflows [int64]; in 2026, long before
    the round's boundary, [Decrypt] does not answer [ErrTooEarly] but calls
    the beacon client and goes on. *)
Theorem decrypt_far_round_not_too_early :
  crypto.Encrypt t_2026 fixed_reader secret unlock_2400
  = Returns (far_blob, sha256.Sum256 far_blob, far_round, None)
  /\ far_round = 399134485
  /\ t_2026 < crypto.round_boundary far_round
  /\ crypto.Decrypt mock_zeros t_2026 far_blob far_round
     = {| crypto.calls := [far_round]; crypto.result := Returns (secret, None) |}.
Proof.
  split; [vm_compute; reflexivity|].
  split; [reflexivity|].
  split; [vm_compute; reflexivity|].
  vm_compute. reflexivity.
Qed.

(* ===================================================================== *)
(** * The store: keys, [Save], [Get] *)
(* ===================================================================== *)

Lemma append_nil_l (s : string) : ("" ++ s)%string = s.
Proof. reflexivity. Qed.

Lemma append_cons_l (c : ascii) (a s : string) :
  (String c a ++ s)%string = String c (a ++ s)%string.
Proof. reflexivity. Qed.

Lemma composite_key_nonempty (id hash : string) : composite_key id hash <> ""%string.
Proof.
  unfold composite_key. destruct id.
  - rewrite append_nil_l. discriminate.
  - rewrite append_cons_l. discriminate.
Qed.

Lemma colon_free_app_colon (a b : string) :
  colon_free (a ++ ":" ++ b)%string = false.
Proof.
  induction a as [|c a IH].
  - reflexivity.
  - rewrite append_cons_l. cbn [colon_free]. rewrite IH. apply andb_false_r.
Qed.

(** A key made of a colon-free id and a colon-free hash splits in one way
    only. *)
Lemma composite_key_inj (id hash id' hash' : string) :
  colon_free id = true -> colon_free hash = true ->
  composite_key id hash = composite_key id' hash' ->
  id = id' /\ hash = hash'.
Proof.
  unfold composite_key. revert id'.
  induction id as [|c id IH]; intros [|c' id'] Hid Hhash Heq.
  - change (String ":" hash = String ":" hash') in Heq.
    injection Heq as ->. auto.
  - change (String ":" hash = String c' (id' ++ ":" ++ hash')%string) in Heq.
    injection Heq as <- ->. now rewrite colon_free_app_colon in Hhash.
  - change (String c (id ++ ":" ++ hash)%string = String ":" hash') in Heq.
    injection Heq as -> _. cbn in Hid. discriminate.
  - change (String c (id ++ ":" ++ hash)%string
            = String c' (id' ++ ":" ++ hash')%string) in Heq.
    injection Heq as -> Heq. cbn [colon_free] in Hid.
    apply andb_true_iff in Hid as [_ Hid].
    destruct (IH id' Hid Hhash Heq) as [-> ->]. auto.
Qed.

Section StoreFacts.

Context {codec : storage.Codec}.

Lemma Save_cases (now : time.Time) (w : badger.Write)
  (db : gmap string badger.Entry) (n : storage.Note) :
  storage.Save now w db n =
    match storage.Marshal n with
    | inr err => (db, Some (Wrapf "failed to marshal note: " err))
    | inl data =>
        match badger.Failure w with
        | Some err => (db, Some (Wrapf "failed to save note: " err))
        | None =>
            (<[composite_key (storage.ID n) (storage.Hash n) :=
                 {| badger.Value := data;
                    badger.ExpiresAt := storage.deadline now w n |}]> db,
             None)
        end
    end.
Proof.
  unfold storage.Save, badger.SetEntry.
  destruct (storage.Marshal n) as [data|err]; [|reflexivity].
  destruct (decide _) as [Hk|_]; [now apply composite_key_nonempty in Hk|].
  destruct (badger.Failure w); reflexivity.
Qed.

Lemma Get_cases (now : time.Time) (db : gmap string badger.Entry) (id hash : string) :
  storage.Get now db id hash =
    match db !! composite_key id hash with
    | None => storage.NotFound
    | Some e =>
        if badger.expired now e then storage.NotFound
        else match storage.Unmarshal (badger.Value e) with
             | inl note => (note, None)
             | inr err =>
                 if decide (err = ErrNotFound) then storage.NotFound
                 else (storage.zero_Note, Some (Wrapf "failed to get note: " err))
             end
    end.
Proof.
  unfold storage.Get, badger.Get, storage.NotFound.
  destruct (decide (composite_key id hash = ""%string)) as [Hk|_];
    [now apply composite_key_nonempty in Hk|].
  destruct (db !! composite_key id hash) as [e|]; [|reflexivity].
  destruct (badger.expired now e); [reflexivity|].
  destruct (storage.Unmarshal (badger.Value e)) as [note|err]; reflexivity.
Qed.

Lemma save_all_cons (db : gmap string badger.Entry) (t : time.Time)
  (w : badger.Write) (n : storage.Note)
  (rest : list (time.Time * badger.Write * storage.Note)) :
  storage.save_all db ((t, w, n) :: rest)
  = storage.save_all (fst (storage.Save t w db n)) rest.
Proof. reflexivity. Qed.

(** Saves under other keys leave a key's entry alone. *)
Lemma save_all_frame (k : string)
  (saves : list (time.Time * badger.Write * storage.Note)) :
  forall db : gmap string badger.Entry,
    Forall (fun tn => composite_key (storage.ID (snd tn)) (storage.Hash (snd tn)) <> k)
           saves ->
    storage.save_all db saves !! k = db !! k.
Proof.
  induction saves as [|[[t w] n] rest IH]; intros db Hall; [reflexivity|].
  inversion Hall as [|? ? Hk Hrest]; subst. simpl in Hk.
  rewrite save_all_cons, IH by assumption.
  rewrite Save_cases. destruct (storage.Marshal n); [|reflexivity].
  destruct (badger.Failure w); [reflexivity|].
  now apply lookup_insert_ne.
Qed.

(** Every entry of the store was there at the start or was written by one
    of the saves, under that note's key, with that save's deadline. *)
Lemma save_all_lookup (saves : list (time.Time * badger.Write * storage.Note)) :
  forall (db : gmap string badger.Entry) (k : string) (e : badger.Entry),
    storage.save_all db saves !! k = Some e ->
    db !! k = Some e
    \/ exists t w n data,
         (t, w, n) ∈ saves
         /\ composite_key (storage.ID n) (storage.Hash n) = k
         /\ storage.Marshal n = inl data
         /\ badger.Failure w = None
         /\ e = {| badger.Value := data; badger.ExpiresAt := storage.deadline t w n |}.
Proof.
  induction saves as [|[[t w] n] rest IH]; intros db k e Hlook; [now left|].
  rewrite save_all_cons in Hlook.
  destruct (IH _ _ _ Hlook) as [Hhere | (t' & w' & n' & data & Hin & Hk & Hm & Hf & He)].
  - rewrite Save_cases in Hhere.
    destruct (storage.Marshal n) as [data|err] eqn:Hm; [|now left].
    destruct (badger.Failure w) as [err|] eqn:Hf; [now left|].
    cbn [fst] in Hhere.
    destruct (decide (composite_key (storage.ID n) (storage.Hash n) = k)) as [Hk|Hk].
    + subst k. rewrite lookup_insert_eq in Hhere. injection Hhere as <-.
      right. exists t, w, n, data. repeat split; auto. apply list_elem_of_here.
    + rewrite lookup_insert_ne in Hhere by assumption. now left.
  - right. exists t', w', n', data. repeat split; auto.
    now apply list_elem_of_further.
Qed.

End StoreFacts.

(** The deadline [Save] sets is [UnlockAt] plus the retention window plus
    the time between the clock reading of [Save] and the stamp of the
    engine, unless the window ends more than a [Duration] away from the
    clock. *)
Lemma deadline_exact (now : time.Time) (w : badger.Write) (n : storage.Note) :
  minInt64 <= storage.UnlockAt n + storage.retention - now <= maxInt64 ->
  storage.deadline now w n
  = storage.UnlockAt n + storage.retention + (badger.Stamp w - now).
Proof.
  unfold storage.deadline, time.Until, time.Sub, time.Add. lia.
Qed.

(** Once the clock has passed the stamp of the write, and [UnlockAt] plus
    the retention window plus the delay of the stamp, it has passed the
    deadline. *)
Lemma deadline_passed (t : time.Time) (w : badger.Write) (t' : time.Time)
  (n : storage.Note) :
  badger.Stamp w <= t' ->
  storage.UnlockAt n + storage.retention + (badger.Stamp w - t) <= t' ->
  storage.deadline t w n <= t'.
Proof.
  unfold storage.deadline, time.Until, time.Sub, time.Add, minInt64, maxInt64. lia.
Qed.

(** Before [UnlockAt] plus the retention window, and less than a [Duration]
    after the stamp of a write that follows the clock reading of [Save], the
    deadline has not come. *)
Lemma before_deadline (t : time.Time) (w : badger.Write) (t' : time.Time)
  (n : storage.Note) :
  t <= badger.Stamp w -> t' - badger.Stamp w < maxInt64 ->
  t' < storage.UnlockAt n + storage.retention ->
  t' < storage.deadline t w n.
Proof.
  unfold storage.deadline, time.Until, time.Sub, time.Add, minInt64, maxInt64. lia.
Qed.

(** [Get] right after a successful [Save], before the deadline, for a note
    the serialization gives back. *)
Lemma Get_after_Save {codec : storage.Codec} (db db' : gmap string badger.Entry)
  (n : storage.Note) (t : time.Time) (w : badger.Write) (t' : time.Time) :
  storage.roundtrips codec n ->
  storage.Save t w db n = (db', None) ->
  t' < storage.deadline t w n ->
  storage.Get t' db' (storage.ID n) (storage.Hash n) = (n, None).
Proof.
  intros Hrt Hsave Hlive. rewrite Save_cases in Hsave. rewrite Get_cases.
  destruct (storage.Marshal n) as [data|e] eqn:Hm; [|discriminate].
  destruct (badger.Failure w); [discriminate|].
  injection Hsave as <-. rewrite lookup_insert_eq.
  unfold badger.expired. cbn [badger.ExpiresAt badger.Value].
  now rewrite (proj2 (Z.leb_gt _ _) Hlive), (Hrt data Hm).
Qed.

(** C6: the claim fails.  [Save] reads the clock at 2026-01-01T00:00:00Z
    for [time.Until], the engine stamps the entry one microsecond later,
    and one nanosecond after [UnlockAt] plus the retention window of 7 days
    [Get] still returns the record, where the claim promises NotFound. *)
Theorem get_after_retention_still_found :
  snd (storage.Save t_2026 (accepted (time.Add t_2026 1000)) ∅ note_frac) = None
  /\ storage.UnlockAt note_frac + 7 * 24 * time.Hour
     < time.Add (storage.UnlockAt note_frac) (7 * 24 * time.Hour + 1)
  /\ storage.Get (time.Add (storage.UnlockAt note_frac) (7 * 24 * time.Hour + 1))
       (fst (storage.Save t_2026 (accepted (time.Add t_2026 1000)) ∅ note_frac))
       (storage.ID note_frac) (storage.Hash note_frac)
     = (note_frac, None)
  /\ storage.Get (time.Add (storage.UnlockAt note_frac) (7 * 24 * time.Hour + 1))
       (fst (storage.Save t_2026 (accepted (time.Add t_2026 1000)) ∅ note_frac))
       (storage.ID note_frac) (storage.Hash note_frac)
     <> storage.NotFound.
Proof.
  split; [reflexivity|]. split; [vm_compute; reflexivity|].
  assert (Hget : storage.Get
                   (time.Add (storage.UnlockAt note_frac) (7 * 24 * time.Hour + 1))
                   (fst (storage.Save t_2026 (accepted (time.Add t_2026 1000)) ∅
                           note_frac))
                   (storage.ID note_frac) (storage.Hash note_frac)
                 = (note_frac, None)).
  { apply (Get_after_Save ∅ _ note_frac t_2026 (accepted (time.Add t_2026 1000))).
    - apply json_roundtrips; reflexivity.
    - reflexivity.
    - vm_compute. reflexivity. }
  split; [exact Hget|]. rewrite Hget. discriminate.
Qed.

(** X27: what does hold of C6.  For a record saved with the clock reading
    [t] and the engine's stamp [Stamp w] (and whatever is saved later under
    other keys), once the clock has reached [UnlockAt] plus the retention
    window of 7 days plus the delay [Stamp w - t], [Get] for the record's id
    and fingerprint returns NotFound. *)
Theorem get_after_retention_not_found
  {codec : storage.Codec} (db : gmap string badger.Entry) (n : storage.Note)
  (t : time.Time) (w : badger.Write) (t' : time.Time)
  (later : list (time.Time * badger.Write * storage.Note)) :
  snd (storage.Save t w db n) = None ->
  Forall (fun tn => composite_key (storage.ID (snd tn)) (storage.Hash (snd tn))
                    <> composite_key (storage.ID n) (storage.Hash n)) later ->
  badger.Stamp w <= t' ->
  storage.UnlockAt n + 7 * 24 * time.Hour + (badger.Stamp w - t) <= t' ->
  storage.Get t' (storage.save_all (fst (storage.Save t w db n)) later)
              (storage.ID n) (storage.Hash n)
  = storage.NotFound.
Proof.
  intros Hok Hlater Htt Hpast.
  rewrite Get_cases, save_all_frame by assumption.
  rewrite Save_cases in Hok |- *.
  destruct (storage.Marshal n) as [data|err]; [|discriminate].
  destruct (badger.Failure w); [discriminate|].
  cbn [fst]. rewrite lookup_insert_eq.
  unfold badger.expired. cbn [badger.ExpiresAt].
  now rewrite (proj2 (Z.leb_le _ _) (deadline_passed t w t' n Htt Hpast)).
Qed.

(** C9, as amended: for a record whose id and fingerprint are valid UTF-8,
    [Get] after a successful [Save], before the deadline the save set,
    returns the saved record, every field as it was. *)
Theorem get_after_save_identical
  (db : gmap string badger.Entry) (n : storage.Note)
  (t : time.Time) (w : badger.Write) (t' : time.Time) :
  utf8.ValidString (storage.ID n) = true ->
  utf8.ValidString (storage.Hash n) = true ->
  snd (storage.Save (codec := json.codec) t w db n) = None ->
  t' < storage.deadline t w n ->
  storage.Get (codec := json.codec) t'
    (fst (storage.Save (codec := json.codec) t w db n)) (storage.ID n) (storage.Hash n)
  = (n, None).
Proof.
  intros Hid Hhash Hok Hlive.
  destruct (storage.Save t w db n) as [db' err] eqn:Hsave.
  cbn [fst snd] in *. subst err.
  apply (Get_after_Save db db' n t w t'); [|exact Hsave|exact Hlive].
  now apply json_roundtrips.
Qed.

(** C9, as stated, fails: the saved record has the id 0xff, and [Get] right
    after the save returns a record whose id is U+FFFD. *)
Lemma get_after_save_coerces_id :
  snd (storage.Save (codec := json.codec) t_2026 (accepted t_2026) ∅ note_ff) = None
  /\ storage.Get (codec := json.codec) t_2026
       (fst (storage.Save (codec := json.codec) t_2026 (accepted t_2026) ∅ note_ff))
       (storage.ID note_ff) (storage.Hash note_ff)
     = (note_fffd, None)
  /\ note_fffd <> note_ff.
Proof.
  split; [reflexivity|]. split; [|discriminate].
  rewrite Get_cases, Save_cases.
  cbn [storage.Marshal json.codec badger.Failure accepted fst].
  change (json.year_in_range (storage.UnlockAt note_ff)) with true. cbn iota.
  cbn [fst]. rewrite lookup_insert_eq. cbn [badger.Value badger.ExpiresAt].
  change (badger.expired t_2026 _) with false. cbn iota.
  rewrite (Unmarshal_Marshal note_ff _ eq_refl).
  reflexivity.
Qed.

(** C5, as amended: over records whose ids and fingerprints hold no colon,
    [Get] returns a record only when a saved, unexpired record has exactly
    that id and that fingerprint; on any mismatch it returns NotFound, so two
    mismatching lookups cannot be told apart. *)
Theorem get_exact_match_colon_free
  {codec : storage.Codec} (saves : list (time.Time * badger.Write * storage.Note))
  (t : time.Time) :
  Forall (fun tn => colon_free (storage.ID (snd tn)) = true
                    /\ colon_free (storage.Hash (snd tn)) = true) saves ->
  (forall id hash note,
      storage.Get t (storage.save_all ∅ saves) id hash = (note, None) ->
      exists s w n, (s, w, n) ∈ saves /\ storage.ID n = id /\ storage.Hash n = hash
                    /\ t < storage.deadline s w n)
  /\ (forall id hash,
        (forall s w n, (s, w, n) ∈ saves ->
                       ~ (storage.ID n = id /\ storage.Hash n = hash)) ->
        storage.Get t (storage.save_all ∅ saves) id hash = storage.NotFound)
  /\ (forall id1 hash1 id2 hash2,
        (forall s w n, (s, w, n) ∈ saves ->
                       ~ (storage.ID n = id1 /\ storage.Hash n = hash1)) ->
        (forall s w n, (s, w, n) ∈ saves ->
                       ~ (storage.ID n = id2 /\ storage.Hash n = hash2)) ->
        storage.Get t (storage.save_all ∅ saves) id1 hash1
        = storage.Get t (storage.save_all ∅ saves) id2 hash2).
Proof.
  intros Hfree.
  assert (Hentry : forall id hash e,
             storage.save_all ∅ saves !! composite_key id hash = Some e ->
             exists s w n, (s, w, n) ∈ saves /\ storage.ID n = id
                           /\ storage.Hash n = hash
                           /\ badger.ExpiresAt e = storage.deadline s w n).
  { intros id hash e Hlook.
    destruct (save_all_lookup _ _ _ _ Hlook)
      as [Hempty | (s & w & n & data & Hin & Hk & _ & _ & ->)].
    - now rewrite lookup_empty in Hempty.
    - rewrite Forall_forall in Hfree. destruct (Hfree _ Hin) as [Hid Hhash].
      destruct (composite_key_inj _ _ _ _ Hid Hhash Hk) as [<- <-].
      exists s, w, n. auto. }
  assert (Hmiss : forall id hash,
             (forall s w n, (s, w, n) ∈ saves ->
                            ~ (storage.ID n = id /\ storage.Hash n = hash)) ->
             storage.Get t (storage.save_all ∅ saves) id hash = storage.NotFound).
  { intros id hash Hno. rewrite Get_cases.
    destruct (storage.save_all ∅ saves !! composite_key id hash) as [e|] eqn:Hlook;
      [|reflexivity].
    destruct (Hentry _ _ _ Hlook) as (s & w & n & Hin & Hid & Hhash & _).
    now destruct (Hno s w n Hin). }
  split; [|split].
  - intros id hash note. rewrite Get_cases.
    destruct (storage.save_all ∅ saves !! composite_key id hash) as [e|] eqn:Hlook;
      [|discriminate].
    destruct (Hentry _ _ _ Hlook) as (s & w & n & Hin & Hid & Hhash & Hexp).
    unfold badger.expired. rewrite Hexp.
    destruct (Z.leb_spec (storage.deadline s w n) t); [discriminate|].
    intros _. exists s, w, n. auto.
  - exact Hmiss.
  - intros id1 hash1 id2 hash2 H1 H2. now rewrite !Hmiss.
Qed.

(** C5, as stated, fails: the only saved record has id ["a:b"], and [Get]
    with id ["a"] returns it, where the claim promises NotFound. *)
Lemma get_colon_collision :
  storage.ID note_colon <> "a"%string
  /\ storage.Get t_2026 (fst (storage.Save t_2026 (accepted t_2026) ∅ note_colon))
       "a" "b:c"
     = (note_colon, None)
  /\ storage.Get t_2026 (fst (storage.Save t_2026 (accepted t_2026) ∅ note_colon))
       "a" "b:c"
     <> storage.NotFound.
Proof.
  split; [discriminate|].
  assert (Hget : storage.Get t_2026
                   (fst (storage.Save t_2026 (accepted t_2026) ∅ note_colon)) "a" "b:c"
                 = (note_colon, None)).
  { rewrite Get_cases.
    change (composite_key "a" "b:c")
      with (composite_key (storage.ID note_colon) (storage.Hash note_colon)).
    rewrite <- Get_cases.
    apply (Get_after_Save ∅ _ note_colon t_2026 (accepted t_2026)).
    - apply json_roundtrips; reflexivity.
    - reflexivity.
    - vm_compute. reflexivity. }
  split; [exact Hget|]. rewrite Hget. discriminate.
Qed.

(* ===================================================================== *)
(** * The theorems at concrete inputs *)
(* ===================================================================== *)

(** C7 on the run of the codec at [t_2026]. *)
Lemma encrypt_fingerprint_is_sha256_witness :
  near_hash = sha256.Sum256 near_blob /\ length near_hash = 32%nat.
Proof.
  apply (encrypt_fingerprint_is_sha256 t_2026 fixed_reader secret unlock_10min
           near_blob near_hash near_round).
  vm_compute. reflexivity.
Defined.

(** C10 on the run of the codec at [t_2026]: 24 bytes in, 84 bytes out. *)
Lemma encrypt_blob_length_witness :
  length near_blob = (length secret + 60)%nat
  /\ (60 <= length near_blob)%nat
  /\ (length near_blob <? 44)%nat = false.
Proof.
  apply (encrypt_blob_length t_2026 fixed_reader secret unlock_10min
           near_blob near_hash near_round).
  vm_compute. reflexivity.
Defined.

(** C8 with the drand wrapper when the library client times out. *)
Lemma decrypt_beacon_unavailable_witness :
  crypto.Decrypt drand_down unlock_10min near_blob near_round
  = {| crypto.calls := [near_round];
       crypto.result :=
         Returns ([], Some (crypto.BeaconUnavailable
                              (Wrapf "failed to fetch randomness: "
                                     (Foreign "context deadline exceeded")))) |}
  /\ crypto.BeaconUnavailable
       (Wrapf "failed to fetch randomness: " (Foreign "context deadline exceeded"))
     <> crypto.TooEarly.
Proof.
  apply (decrypt_beacon_unavailable drand_down unlock_10min near_blob near_round []).
  - vm_compute. discriminate.
  - vm_compute. discriminate.
  - reflexivity.
Defined.

(** X27 on a note unlocking one hour after [t_2026], stamped a microsecond
    after the clock reading of its save and read eight days later. *)
Lemma get_after_retention_not_found_witness :
  storage.Get (time.Add t_2026 (8 * 24 * time.Hour))
              (storage.save_all
                 (fst (storage.Save t_2026 (accepted (time.Add t_2026 1000)) ∅ note_uuid))
                 [])
              (storage.ID note_uuid) (storage.Hash note_uuid)
  = storage.NotFound.
Proof.
  apply (get_after_retention_not_found ∅ note_uuid t_2026
           (accepted (time.Add t_2026 1000)) (time.Add t_2026 (8 * 24 * time.Hour)) []).
  - reflexivity.
  - constructor.
  - vm_compute. discriminate.
  - vm_compute. discriminate.
Defined.

(** C9, as amended, on the same note, read at the instant of the save. *)
Lemma get_after_save_identical_witness :
  storage.Get (codec := json.codec) t_2026
    (fst (storage.Save (codec := json.codec) t_2026 (accepted t_2026) ∅ note_uuid))
    (storage.ID note_uuid) (storage.Hash note_uuid)
  = (note_uuid, None).
Proof.
  apply (get_after_save_identical ∅ note_uuid t_2026 (accepted t_2026) t_2026).
  - reflexivity.
  - reflexivity.
  - reflexivity.
  - vm_compute. reflexivity.
Defined.

(** C5, as amended, on a store holding [note_uuid]: the right id with a wrong
    fingerprint gives NotFound. *)
Lemma get_exact_match_colon_free_witness :
  storage.Get t_2026 (storage.save_all ∅ [(t_2026, accepted t_2026, note_uuid)])
              (storage.ID note_uuid) "00"
  = storage.NotFound.
Proof.
  apply (proj1 (proj2 (get_exact_match_colon_free
                         [(t_2026, accepted t_2026, note_uuid)] t_2026
                         ltac:(repeat constructor)))).
  intros s w n Hin [_ Hhash].
  apply list_elem_of_singleton in Hin. injection Hin as -> -> ->.
  discriminate Hhash.
Defined.

(* ===================================================================== *)
(** * When [Decrypt] does undo [Encrypt] *)
(* ===================================================================== *)

Section RoundTrip.

(** Enough fuel is enough: [chunks_fuel] does not depend on the surplus. *)
Lemma chunks_fuel_enough {A} (n : nat) :
  (0 < n)%nat ->
  forall f1 f2 (l : list A),
    (length l <= f1)%nat -> (length l <= f2)%nat ->
    chunks_fuel f1 n l = chunks_fuel f2 n l.
Proof.
  intros Hn. induction f1 as [|f1 IH]; intros f2 l H1 H2.
  - destruct l; [|simpl in H1; lia]. now destruct f2.
  - destruct l as [|x l]; [now destruct f2|].
    destruct f2 as [|f2]; [simpl in H2; lia|].
    cbn [chunks_fuel]. f_equal.
    apply IH; rewrite length_drop; simpl in *; lia.
Qed.

Variables (b : aes.Block) (nonce : list byte).
Hypothesis Hb : block16 b.

(** Counter mode is its own inverse. *)
Lemma counterCrypt_blocks_involutive :
  forall fuel data ctr,
    (length data <= fuel)%nat ->
    cipher.counterCrypt b nonce ctr
      (cipher.counterCrypt_blocks b nonce ctr (chunks_fuel fuel 16 data))
    = data.
Proof.
  induction fuel as [|fuel IH]; intros data ctr Hlen.
  - destruct data; [reflexivity | simpl in Hlen; lia].
  - destruct data as [|x data]; [reflexivity|].
    cbn [chunks_fuel cipher.counterCrypt_blocks].
    set (hd := take 16 (x :: data)).
    set (tl := drop 16 (x :: data)).
    set (mask := aes.Encrypt b (cipher.counter_block nonce ctr)).
    set (R := cipher.counterCrypt_blocks b nonce (to_uint32 (ctr + 1))
                (chunks_fuel fuel 16 tl)).
    assert (Hhd : (1 <= length hd <= 16)%nat)
      by (subst hd; rewrite length_take; cbn [length]; lia).
    assert (Htl : (length tl <= fuel)%nat)
      by (subst tl; rewrite length_drop; cbn [length] in *; lia).
    assert (Hx : length (xor_bytes hd mask) = length hd)
      by (subst mask; rewrite length_xor_bytes, Hb; lia).
    assert (HR : length R = length tl).
    { subst R. rewrite length_counterCrypt_blocks by (auto; apply chunks_fuel_bounded).
      now rewrite concat_chunks_fuel by lia. }
    assert (Hsplit : take 16%nat (xor_bytes hd mask ++ R) = xor_bytes hd mask
                     /\ drop 16%nat (xor_bytes hd mask ++ R) = R).
    { destruct (Nat.eq_dec (length hd) 16%nat) as [H16|H16].
      - split; [apply take_app_length' | apply drop_app_length']; lia.
      - assert (Hshort : (length (x :: data) < 16)%nat).
        { subst hd. rewrite length_take in H16, Hhd. lia. }
        assert (HRnil : R = []).
        { apply length_zero_iff_nil. rewrite HR. subst tl.
          rewrite length_drop. lia. }
        rewrite HRnil, app_nil_r.
        split; [apply take_ge | apply drop_ge]; lia. }
    destruct Hsplit as [Htake Hdrop].
    unfold cipher.counterCrypt, chunks.
    rewrite length_app, Hx.
    destruct (length hd) as [|k] eqn:Hk; [lia|].
    cbn [Nat.add chunks_fuel].
    destruct (xor_bytes hd mask ++ R) as [|y rest] eqn:Hct.
    { apply (f_equal (@length Z)) in Hct. rewrite length_app in Hct.
      cbn [length] in Hct. lia. }
    rewrite Htake, Hdrop. cbn [cipher.counterCrypt_blocks].
    fold mask. rewrite xor_bytes_involutive by (subst mask; rewrite Hb; lia).
    rewrite (chunks_fuel_enough 16 ltac:(lia) _ (length R) R) by lia.
    pose proof (IH tl (to_uint32 (ctr + 1)) Htl) as IHtl.
    unfold cipher.counterCrypt, chunks in IHtl. fold R in IHtl. rewrite IHtl.
    subst hd tl. apply take_drop.
Qed.

Lemma counterCrypt_involutive (ctr : Z) (data : list byte) :
  cipher.counterCrypt b nonce ctr (cipher.counterCrypt b nonce ctr data) = data.
Proof. now apply counterCrypt_blocks_involutive. Qed.

End RoundTrip.

Lemma bytes_eqb_refl (a : list byte) : cipher.bytes_eqb a a = true.
Proof.
  unfold cipher.bytes_eqb. rewrite Nat.eqb_refl. cbn [andb].
  induction a as [|x a IH]; [reflexivity|].
  cbn [combine forallb fst snd]. now rewrite Z.eqb_refl, IH.
Qed.

(** [Open] under the key and nonce of [Seal] gives the plaintext back. *)
Lemma Open_Seal (g : cipher.AEAD) (nonce plaintext ad sealed : list byte) :
  block16 (cipher.block g) ->
  cipher.Seal g nonce plaintext ad = Returns sealed ->
  cipher.Open g nonce sealed ad = Returns (plaintext, None).
Proof.
  intros Hb. unfold cipher.Seal, cipher.Open.
  destruct (negb _); [discriminate|].
  destruct (Z.ltb_spec cipher.gcmMaxPlaintext (Z.of_nat (length plaintext)));
    [discriminate|].
  intros [= <-].
  set (ct := cipher.counterCrypt (cipher.block g) nonce 2 plaintext).
  set (tag := cipher.auth (cipher.block g) nonce ct ad).
  assert (Hct : length ct = length plaintext)
    by (subst ct; now apply length_counterCrypt).
  assert (Htag : length tag = 16%nat) by (subst tag; now apply length_auth).
  rewrite length_app, Hct, Htag.
  unfold cipher.gcmTagSize.
  rewrite (proj2 (Nat.ltb_ge _ _)) by lia.
  rewrite (proj2 (Z.ltb_ge _ _)) by lia.
  replace (length plaintext + 16 - 16)%nat with (length ct) by lia.
  rewrite take_app_length, drop_app_length.
  fold tag. rewrite bytes_eqb_refl. cbn [negb].
  subst ct. now rewrite counterCrypt_involutive.
Qed.

(** The key loop of [Decrypt] computes the XOR index by index. *)
Lemma derive_key_steps (key randomness : list byte) :
  length randomness <> 0%nat ->
  forall m s,
    crypto.derive_key (seq s m) key randomness
      (map (fun i => Z.lxor (at_ key i) (at_ randomness (i mod length randomness)))
           (seq 0 s) ++ repeat 0 m)
    = Returns
        (map (fun i => Z.lxor (at_ key i) (at_ randomness (i mod length randomness)))
             (seq 0 (s + m))).
Proof.
  intros Hlen. induction m as [|m IH]; intros s.
  - cbn [seq crypto.derive_key repeat]. now rewrite app_nil_r, Nat.add_0_r.
  - cbn [seq crypto.derive_key repeat].
    rewrite (proj2 (Nat.eqb_neq _ _) Hlen).
    set (f := fun i => Z.lxor (at_ key i) (at_ randomness (i mod length randomness))).
    replace (<[s := f s]> (map f (seq 0 s) ++ 0 :: repeat 0 m))
      with (map f (seq 0 (S s)) ++ repeat 0 m).
    + rewrite IH. now replace (S s + m)%nat with (s + S m)%nat by lia.
    + rewrite seq_S, map_app, <- app_assoc. cbn [map app Nat.add].
      pose proof (insert_app_r (map f (seq 0 s)) (0 :: repeat 0 m) 0 (f s)) as Hins.
      rewrite length_map, length_seq, Nat.add_0_r in Hins.
      now rewrite Hins.
Qed.

Lemma nth_map_seq (f : nat -> Z) (n i : nat) :
  (i < n)%nat -> nth i (map f (seq 0 n)) 0 = f i.
Proof.
  intros Hi.
  rewrite (nth_indep _ 0 (f 0%nat)) by now rewrite length_map, length_seq.
  now rewrite map_nth, seq_nth.
Qed.

Lemma derive_key_zero_mask (key randomness : list byte) :
  length key = 32%nat ->
  length randomness <> 0%nat ->
  (forall i, (i < 32)%nat -> at_ randomness (i mod length randomness) = 0) ->
  crypto.derive_key (seq 0 32) key randomness (make 32) = Returns key.
Proof.
  intros Hkey Hlen Hzero.
  etransitivity; [exact (derive_key_steps key randomness Hlen 32 0)|].
  f_equal. change (0 + 32)%nat with 32%nat.
  apply (nth_ext _ _ 0 0).
  - now rewrite length_map, length_seq.
  - intros i Hi. rewrite length_map, length_seq in Hi.
    rewrite nth_map_seq by assumption.
    rewrite Hzero by assumption. unfold at_. apply Z.lxor_0_r.
Qed.

Lemma round_of_nonneg (t : time.Time) : 0 <= crypto.round_of t < 2 ^ 64.
Proof. unfold crypto.round_of, to_uint64. apply Z.mod_pos_bound. lia. Qed.

(** [Decrypt] past the code's unlock instant, on a well-formed blob and a
    randomness that leaves the key as it is: the sealed part is opened under
    the stored key. *)
Lemma Decrypt_zero_mask {C : Type} `{Client C} (DefaultClient : C)
  (now : time.Time) (round : Z) (key nonce sealed rand plaintext : list byte) :
  length key = 32%nat -> length nonce = 12%nat ->
  cipher.Seal (gcm_of_key key) nonce plaintext [] = Returns sealed ->
  time.Before now (crypto.unlock_time round) = false ->
  FetchRandomness DefaultClient round = (rand, None) ->
  length rand <> 0%nat ->
  (forall i, (i < 32)%nat -> at_ rand (i mod length rand) = 0) ->
  crypto.Decrypt DefaultClient now (key ++ nonce ++ sealed) round
  = {| crypto.calls := [round]; crypto.result := Returns (plaintext, None) |}.
Proof.
  intros Hkey Hnonce Hseal Hb Hf Hlen Hzero. unfold_Decrypt.
  rewrite Hb, Hf.
  rewrite (proj2 (Nat.ltb_ge _ _)) by (rewrite !length_app; lia).
  assert (Hk : slice (key ++ nonce ++ sealed) 0 32 = key).
  { unfold slice. cbn [drop Nat.sub]. now apply take_app_length'. }
  assert (Hn : slice (key ++ nonce ++ sealed) 32 44 = nonce).
  { unfold slice. rewrite drop_app_length' by auto.
    change (44 - 32)%nat with 12%nat. now apply take_app_length'. }
  assert (Hs : drop 44 (key ++ nonce ++ sealed) = sealed).
  { rewrite app_assoc. apply drop_app_length'. rewrite length_app. lia. }
  rewrite Hk, Hn, Hs.
  rewrite derive_key_zero_mask by assumption.
  rewrite (NewCipher_32 key Hkey).
  unfold cipher.NewGCM. cbn [Nat.eqb aes.BlockSize cipher.gcmBlockSize].
  pose proof (Open_Seal (gcm_of_key key) nonce plaintext [] sealed
                (block16_gcm_of_key key Hkey) Hseal) as Hopen.
  unfold gcm_of_key, block_of_key in Hopen. rewrite (NewCipher_32 key Hkey) in Hopen.
  now rewrite Hopen.
Qed.

(** X2: what does hold of C1.  When every byte of the randomness that the key
    loop reads is zero, [Decrypt] at or after the round's boundary returns
    the plaintext that [Encrypt] sealed. *)
Theorem decrypt_of_encrypt_zero_mask
  {C : Type} `{Client C} (DefaultClient : C)
  (now now' : time.Time) (rnd : io.Reader) (plaintext : list byte)
  (unlockAt : time.Time) (blob hash rand : list byte) (round : Z) :
  crypto.Encrypt now rnd plaintext unlockAt = Returns (blob, hash, round, None) ->
  crypto.round_boundary round <= now' ->
  FetchRandomness DefaultClient round = (rand, None) ->
  length rand <> 0%nat ->
  (forall i, (i < 32)%nat -> at_ rand (i mod length rand) = 0) ->
  crypto.Decrypt DefaultClient now' blob round
  = {| crypto.calls := [round]; crypto.result := Returns (plaintext, None) |}.
Proof.
  intros Henc Hnow Hf Hlen Hzero.
  destruct (Encrypt_success _ _ _ _ _ _ _ Henc)
    as (key & nonce & sealed & Hkey & Hnonce & Hseal & -> & _ & -> & _).
  apply (Decrypt_zero_mask _ _ _ key nonce sealed rand); auto.
  unfold time.Before. apply Z.ltb_ge.
  pose proof (unlock_time_le_boundary _ (proj1 (round_of_nonneg unlockAt))). lia.
Qed.

(** X2 on the run of the codec at [t_2026]. *)
Lemma decrypt_of_encrypt_zero_mask_witness :
  crypto.Decrypt mock_zeros unlock_10min near_blob near_round
  = {| crypto.calls := [near_round]; crypto.result := Returns (secret, None) |}.
Proof.
  apply (decrypt_of_encrypt_zero_mask mock_zeros t_2026 unlock_10min fixed_reader
           secret unlock_10min near_blob near_hash (repeat 0 32) near_round).
  - vm_compute. reflexivity.
  - vm_compute. discriminate.
  - reflexivity.
  - discriminate.
  - intros i Hi. exact (nth_repeat 0 32%nat (i mod 32)%nat).
Defined.

(** X1 at a concrete input: ten minutes before the boundary of a round in
    range. *)
Lemma Decrypt_too_early_in_range_witness :
  crypto.Decrypt mock_zeros t_2026 near_blob near_round
  = {| crypto.calls := []; crypto.result := Returns ([], Some crypto.TooEarly) |}.
Proof.
  apply (Decrypt_too_early_in_range mock_zeros t_2026 near_blob near_round).
  - vm_compute. split; discriminate.
  - vm_compute. reflexivity.
Defined.

(** X4 at a concrete input: a 43-byte blob and an empty randomness. *)
Lemma Decrypt_short_blob_witness :
  crypto.Decrypt mock_empty unlock_10min (take 43 near_blob) near_round
  = {| crypto.calls := [near_round];
       crypto.result := Returns ([], Some crypto.MalformedCiphertext) |}.
Proof.
  apply (Decrypt_short_blob mock_empty unlock_10min (take 43 near_blob) near_round []).
  - vm_compute. reflexivity.
  - reflexivity.
  - vm_compute. lia.
Defined.

(** X3: the round of a successful [Encrypt] is the one computed from
    [unlockAt], strictly above the one computed from the clock. *)
Theorem encrypt_round_strictly_future
  (now : time.Time) (rnd : io.Reader) (plaintext : list byte) (unlockAt : time.Time)
  (blob hash : list byte) (round : Z) :
  crypto.Encrypt now rnd plaintext unlockAt = Returns (blob, hash, round, None) ->
  round = crypto.round_of unlockAt /\ crypto.round_of now < round.
Proof.
  intros Hret.
  destruct (Encrypt_success _ _ _ _ _ _ _ Hret)
    as (key & nonce & sealed & _ & _ & _ & _ & _ & Hround & Hlt).
  auto.
Qed.

Lemma encrypt_round_strictly_future_witness :
  near_round = crypto.round_of unlock_10min /\ crypto.round_of t_2026 < near_round.
Proof.
  apply (encrypt_round_strictly_future t_2026 fixed_reader secret unlock_10min
           near_blob near_hash near_round).
  vm_compute. reflexivity.
Defined.

(* ===================================================================== *)
(** * The codec: how it fails, what the blob gives away *)
(* ===================================================================== *)

(** The key loop leaves the length of [actualKey] as it is. *)
Lemma derive_key_length (todo : list nat) (key rand : list byte) :
  forall acc out,
    crypto.derive_key todo key rand acc = Returns out -> length out = length acc.
Proof.
  induction todo as [|i rest IH]; intros acc out; cbn [crypto.derive_key].
  - now intros [= <-].
  - destruct (length rand =? 0)%nat; [discriminate|].
    intros Hd. rewrite (IH _ _ Hd). apply length_insert.
Qed.

(** [Open] has one error. *)
Lemma Open_error (g : cipher.AEAD) (nonce ct ad p : list byte) (e : error) :
  cipher.Open g nonce ct ad = Returns (p, Some e) -> e = cipher.errOpen.
Proof.
  unfold cipher.Open.
  repeat match goal with
         | |- context [if ?c then _ else _] => destruct c
         end; congruence.
Qed.

(** X5: every error of [Decrypt] comes without plaintext and is one of
    four: too early, the wrapped error of the beacon client, the blob too
    short, the failed authentication.  The two cipher set-up errors never
    occur, the derived key being 32 bytes long. *)
Theorem Decrypt_errors
  {C : Type} `{Client C} (DefaultClient : C) (now : time.Time)
  (ciphertext : list byte) (round : Z) (plaintext : list byte) (err : error) :
  crypto.result (crypto.Decrypt DefaultClient now ciphertext round)
  = Returns (plaintext, Some err) ->
  plaintext = []
  /\ (err = crypto.TooEarly
      \/ (exists bytes cause,
             FetchRandomness DefaultClient round = (bytes, Some cause)
             /\ err = crypto.BeaconUnavailable cause)
      \/ err = crypto.MalformedCiphertext
      \/ err = crypto.DecryptionFailed cipher.errOpen).
Proof.
  unfold crypto.Decrypt.
  destruct (time.Before _ _); cbn [crypto.result].
  { intros [= <- <-]. auto. }
  destruct (FetchRandomness DefaultClient round) as [rand [cause|]] eqn:Hf;
    cbn [crypto.result].
  { intros [= <- <-]. split; [reflexivity|]. right. left. eauto. }
  destruct (length ciphertext <? 44)%nat.
  { intros [= <- <-]. auto. }
  destruct (crypto.derive_key _ _ _ _) as [actualKey|msg] eqn:Hkey; [|discriminate].
  apply derive_key_length in Hkey. rewrite length_make in Hkey.
  rewrite (NewCipher_32 actualKey Hkey).
  unfold cipher.NewGCM. cbn [Nat.eqb aes.BlockSize cipher.gcmBlockSize].
  destruct (cipher.Open _ _ _ _) as [[p [e|]]|msg] eqn:Hopen; try discriminate.
  intros [= <- <-]. apply Open_error in Hopen. subst e. auto 6.
Qed.

(** X5 on the blob of the run at [t_2026] and the beacon of the tests. *)
Lemma Decrypt_errors_witness :
  [] = ([] : list byte)
  /\ (crypto.DecryptionFailed cipher.errOpen = crypto.TooEarly
      \/ (exists bytes cause,
             FetchRandomness mock_0_to_31 near_round = (bytes, Some cause)
             /\ crypto.DecryptionFailed cipher.errOpen
                = crypto.BeaconUnavailable cause)
      \/ crypto.DecryptionFailed cipher.errOpen = crypto.MalformedCiphertext
      \/ crypto.DecryptionFailed cipher.errOpen
         = crypto.DecryptionFailed cipher.errOpen).
Proof.
  apply (Decrypt_errors mock_0_to_31 unlock_10min near_blob near_round).
  vm_compute. reflexivity.
Defined.

(** X6: [Decrypt] asks the beacon client at most once, and only for the
    round it was given; it answers too early exactly when it did not ask,
    which is exactly when the clock is before the unlock instant it
    computes. *)
Theorem Decrypt_beacon_calls
  {C : Type} `{Client C} (DefaultClient : C) (now : time.Time)
  (ciphertext : list byte) (round : Z) :
  let r := crypto.Decrypt DefaultClient now ciphertext round in
  (time.Before now (crypto.unlock_time round) = true
   /\ crypto.calls r = []
   /\ crypto.result r = Returns ([], Some crypto.TooEarly))
  \/ (time.Before now (crypto.unlock_time round) = false
      /\ crypto.calls r = [round]
      /\ forall plaintext,
           crypto.result r <> Returns (plaintext, Some crypto.TooEarly)).
Proof.
  intros r. subst r. unfold_Decrypt.
  destruct (time.Before now (crypto.unlock_time round)).
  - left. auto.
  - right. split; [reflexivity|].
    destruct (FetchRandomness DefaultClient round) as [rand [cause|]];
      cbn [crypto.calls crypto.result]; (split; [reflexivity|]); intros plaintext.
    + discriminate.
    + destruct (length ciphertext <? 44)%nat; [discriminate|].
      destruct (crypto.derive_key _ _ _ _); [|discriminate].
      destruct (aes.NewCipher _); [|discriminate].
      destruct (cipher.NewGCM _); [|discriminate].
      destruct (cipher.Open _ _ _ _) as [[q [e|]]|msg]; discriminate.
Qed.

(** X7: the blob of a successful [Encrypt] holds its own key: the sealed
    part opens under the first 32 bytes of the blob and the next 12 as the
    nonce, with no beacon at all, and gives the plaintext. *)
Theorem encrypt_blob_opens_without_beacon
  (now : time.Time) (rnd : io.Reader) (plaintext : list byte) (unlockAt : time.Time)
  (blob hash : list byte) (round : Z) :
  crypto.Encrypt now rnd plaintext unlockAt = Returns (blob, hash, round, None) ->
  cipher.Open (gcm_of_key (slice blob 0 32)) (slice blob 32 44) (drop 44 blob) []
  = Returns (plaintext, None).
Proof.
  intros Henc.
  destruct (Encrypt_success _ _ _ _ _ _ _ Henc)
    as (key & nonce & sealed & Hkey & Hnonce & Hseal & -> & _).
  assert (Hk : slice (key ++ nonce ++ sealed) 0 32 = key).
  { unfold slice. cbn [drop Nat.sub]. now apply take_app_length'. }
  assert (Hn : slice (key ++ nonce ++ sealed) 32 44 = nonce).
  { unfold slice. rewrite drop_app_length' by auto.
    change (44 - 32)%nat with 12%nat. now apply take_app_length'. }
  assert (Hs : drop 44 (key ++ nonce ++ sealed) = sealed).
  { rewrite app_assoc. apply drop_app_length'. rewrite length_app. lia. }
  rewrite Hk, Hn, Hs.
  apply Open_Seal; [now apply block16_gcm_of_key | exact Hseal].
Qed.

Lemma encrypt_blob_opens_without_beacon_witness :
  cipher.Open (gcm_of_key (slice near_blob 0 32)) (slice near_blob 32 44)
    (drop 44 near_blob) []
  = Returns (secret, None).
Proof.
  apply (encrypt_blob_opens_without_beacon t_2026 fixed_reader secret unlock_10min
           near_blob near_hash near_round).
  vm_compute. reflexivity.
Defined.

(** X8: for an unlock round in the future, a random source that runs out
    before 32 bytes makes [Encrypt] fail on the key, one that runs out
    before 44 bytes makes it fail on the nonce; nothing else is returned,
    and the error wraps the one of [io.ReadFull]: [io.ErrUnexpectedEOF] when
    the source ended with [io.EOF] after some bytes of that draw, the
    source's own error otherwise. *)
Theorem encrypt_random_source_failures
  (now : time.Time) (rnd : io.Reader) (plaintext : list byte) (unlockAt : time.Time) :
  crypto.round_of now < crypto.round_of unlockAt ->
  (length (io.supply rnd) < 44)%nat ->
  crypto.Encrypt now rnd plaintext unlockAt
  = Returns ([], [], 0,
             Some (if (length (io.supply rnd) <? 32)%nat
                   then Wrapf "failed to generate random key: "
                          (if (0 <? length (io.supply rnd))%nat
                              && bool_decide (io.fault rnd = EOF)
                           then ErrUnexpectedEOF else io.fault rnd)
                   else Wrapf "failed to generate nonce: "
                          (if (32 <? length (io.supply rnd))%nat
                              && bool_decide (io.fault rnd = EOF)
                           then ErrUnexpectedEOF else io.fault rnd))).
Proof.
  intros Hround Hlen. rewrite Encrypt_cases.
  rewrite (proj2 (Z.leb_gt _ _) Hround). unfold io.short_read.
  destruct (length (io.supply rnd) <? 32)%nat; [reflexivity|].
  rewrite (proj2 (Nat.ltb_lt _ _) Hlen).
  replace (0 <? length (io.supply rnd) - 32)%nat
    with (32 <? length (io.supply rnd))%nat; [reflexivity|].
  destruct (Nat.ltb_spec 32 (length (io.supply rnd)));
    destruct (Nat.ltb_spec 0 (length (io.supply rnd) - 32)); auto; lia.
Qed.

(** X8 with a source that ends after 40 bytes: the nonce is 8 bytes
    short. *)
Lemma encrypt_random_source_failures_witness :
  crypto.Encrypt t_2026 {| io.supply := repeat 7 40; io.fault := EOF |}
    secret unlock_10min
  = Returns ([], [], 0, Some (Wrapf "failed to generate nonce: " ErrUnexpectedEOF)).
Proof.
  apply (encrypt_random_source_failures t_2026
           {| io.supply := repeat 7 40; io.fault := EOF |}
           secret unlock_10min).
  - vm_compute. reflexivity.
  - vm_compute. lia.
Defined.

(** X9: [Encrypt] succeeds whenever the unlock round is in the future, the
    random source delivers 44 bytes and the plaintext is within the GCM
    limit; the blob starts with the first 32 bytes drawn (the key), goes on
    with the next 12 (the nonce) and ends with the plaintext sealed under
    them. *)
Theorem encrypt_succeeds
  (now : time.Time) (rnd : io.Reader) (plaintext : list byte) (unlockAt : time.Time) :
  crypto.round_of now < crypto.round_of unlockAt ->
  (44 <= length (io.supply rnd))%nat ->
  Z.of_nat (length plaintext) <= cipher.gcmMaxPlaintext ->
  exists sealed,
    cipher.Seal (gcm_of_key (take 32 (io.supply rnd)))
      (take 12 (drop 32 (io.supply rnd))) plaintext []
    = Returns sealed
    /\ crypto.Encrypt now rnd plaintext unlockAt
       = Returns (take 32 (io.supply rnd) ++ take 12 (drop 32 (io.supply rnd)) ++ sealed,
                  sha256.Sum256 (take 32 (io.supply rnd)
                                 ++ take 12 (drop 32 (io.supply rnd)) ++ sealed),
                  crypto.round_of unlockAt, None).
Proof.
  intros Hround Hlen Hmax. rewrite Encrypt_cases.
  rewrite (proj2 (Z.leb_gt _ _) Hround).
  rewrite (proj2 (Nat.ltb_ge _ _)) by lia.
  rewrite (proj2 (Nat.ltb_ge _ _)) by lia.
  unfold cipher.Seal.
  rewrite length_take, length_drop.
  replace (12 `min` (length (io.supply rnd) - 32))%nat with 12%nat by lia.
  cbn [Nat.eqb cipher.gcmStandardNonceSize negb].
  rewrite (proj2 (Z.ltb_ge _ _) Hmax).
  eexists. split; reflexivity.
Qed.

Lemma encrypt_succeeds_witness :
  exists sealed,
    cipher.Seal (gcm_of_key (take 32 (io.supply fixed_reader)))
      (take 12 (drop 32 (io.supply fixed_reader))) secret []
    = Returns sealed
    /\ crypto.Encrypt t_2026 fixed_reader secret unlock_10min
       = Returns (take 32 (io.supply fixed_reader)
                  ++ take 12 (drop 32 (io.supply fixed_reader)) ++ sealed,
                  sha256.Sum256 (take 32 (io.supply fixed_reader)
                                 ++ take 12 (drop 32 (io.supply fixed_reader)) ++ sealed),
                  crypto.round_of unlock_10min, None).
Proof.
  apply (encrypt_succeeds t_2026 fixed_reader secret unlock_10min).
  - vm_compute. reflexivity.
  - vm_compute. lia.
  - vm_compute. discriminate.
Defined.

(** X10: under a 32-byte key and a 12-byte nonce, a plaintext within the GCM
    limit is sealed into 16 bytes more, and opening what was sealed gives
    the plaintext back (what the test of the plain cipher checks). *)
Theorem seal_open_roundtrip (key nonce plaintext : list byte) :
  length key = 32%nat -> length nonce = 12%nat ->
  Z.of_nat (length plaintext) <= cipher.gcmMaxPlaintext ->
  exists sealed,
    cipher.Seal (gcm_of_key key) nonce plaintext [] = Returns sealed
    /\ length sealed = (length plaintext + 16)%nat
    /\ cipher.Open (gcm_of_key key) nonce sealed [] = Returns (plaintext, None).
Proof.
  intros Hkey Hnonce Hmax.
  destruct (cipher.Seal (gcm_of_key key) nonce plaintext []) as [sealed|msg] eqn:Hseal.
  - exists sealed. split; [reflexivity|].
    pose proof (block16_gcm_of_key key Hkey) as Hb.
    split; [now apply (length_Seal _ _ _ _ _ Hb Hseal) | now apply Open_Seal].
  - exfalso. revert Hseal. unfold cipher.Seal. rewrite Hnonce.
    cbn [Nat.eqb cipher.gcmStandardNonceSize negb].
    now rewrite (proj2 (Z.ltb_ge _ _) Hmax).
Qed.

Lemma seal_open_roundtrip_witness :
  exists sealed,
    cipher.Seal (gcm_of_key (repeat 1 32)) (repeat 2 12) secret [] = Returns sealed
    /\ length sealed = (length secret + 16)%nat
    /\ cipher.Open (gcm_of_key (repeat 1 32)) (repeat 2 12) sealed []
       = Returns (secret, None).
Proof.
  apply (seal_open_roundtrip (repeat 1 32) (repeat 2 12) secret).
  - reflexivity.
  - reflexivity.
  - vm_compute. discriminate.
Defined.

(* ===================================================================== *)
(** * The store: frames, failures, time *)
(* ===================================================================== *)

(** X11: saves under other keys change nothing about a lookup; on a store
    that started empty, a key no save has written is NotFound. *)
Theorem get_unaffected_by_other_saves
  {codec : storage.Codec} (db : gmap string badger.Entry)
  (saves : list (time.Time * badger.Write * storage.Note)) (t : time.Time)
  (id hash : string) :
  Forall (fun tn => composite_key (storage.ID (snd tn)) (storage.Hash (snd tn))
                    <> composite_key id hash) saves ->
  storage.Get t (storage.save_all db saves) id hash = storage.Get t db id hash
  /\ storage.Get t (storage.save_all ∅ saves) id hash = storage.NotFound.
Proof.
  intros Hother. rewrite !Get_cases, !save_all_frame by assumption.
  split; [reflexivity|]. now rewrite lookup_empty.
Qed.

Lemma get_unaffected_by_other_saves_witness :
  storage.Get t_2026
    (storage.save_all (fst (storage.Save t_2026 (accepted t_2026) ∅ note_uuid))
       [(t_2026, accepted t_2026, note_colon)])
    (storage.ID note_uuid) (storage.Hash note_uuid)
  = storage.Get t_2026 (fst (storage.Save t_2026 (accepted t_2026) ∅ note_uuid))
                (storage.ID note_uuid) (storage.Hash note_uuid)
  /\ storage.Get t_2026 (storage.save_all ∅ [(t_2026, accepted t_2026, note_colon)])
                 (storage.ID note_uuid) (storage.Hash note_uuid)
     = storage.NotFound.
Proof.
  apply (get_unaffected_by_other_saves
           (fst (storage.Save t_2026 (accepted t_2026) ∅ note_uuid))
           [(t_2026, accepted t_2026, note_colon)] t_2026).
  repeat constructor. discriminate.
Defined.

(** X12: [Save] returns no error exactly when the serialization succeeds
    and the engine accepts the write; a failed serialization is reported as
    "failed to marshal note", a refused write as "failed to save note", each
    wrapping its cause, and both leave the store as it was; a save never
    touches another key than its own. *)
Theorem save_touches_only_its_key
  {codec : storage.Codec} (t : time.Time) (w : badger.Write)
  (db : gmap string badger.Entry) (n : storage.Note) :
  (snd (storage.Save t w db n) = None
   <-> (exists data, storage.Marshal n = inl data) /\ badger.Failure w = None)
  /\ (forall err, storage.Marshal n = inr err ->
                  storage.Save t w db n
                  = (db, Some (Wrapf "failed to marshal note: " err)))
  /\ (forall data err, storage.Marshal n = inl data -> badger.Failure w = Some err ->
                       storage.Save t w db n
                       = (db, Some (Wrapf "failed to save note: " err)))
  /\ (forall k, k <> composite_key (storage.ID n) (storage.Hash n) ->
                fst (storage.Save t w db n) !! k = db !! k).
Proof.
  rewrite Save_cases.
  destruct (storage.Marshal n) as [data|err]; cbn [fst snd].
  - destruct (badger.Failure w) as [err|]; cbn [fst snd].
    + split; [split; [discriminate | intros [_ [=]]]|].
      split; [discriminate|]. split; [now intros d e _ [= <-]|reflexivity].
    + split; [split; eauto|]. split; [discriminate|]. split; [discriminate|].
      intros k Hk. now apply lookup_insert_ne.
  - split; [split; [discriminate | intros [[data [=]] _]]|].
    split; [now intros e [= <-]|]. split; [discriminate | reflexivity].
Qed.

Lemma expired_mono (t t' : time.Time) (e : badger.Entry) :
  t <= t' -> badger.expired t e = true -> badger.expired t' e = true.
Proof. unfold badger.expired. intros Htt He. apply Z.leb_le in He. apply Z.leb_le. lia. Qed.

(** X13: a lookup that is NotFound stays NotFound at every later time, as
    long as nothing is saved: an expired record does not come back. *)
Theorem get_not_found_is_permanent
  {codec : storage.Codec} (db : gmap string badger.Entry) (t t' : time.Time)
  (id hash : string) :
  t <= t' ->
  storage.Get t db id hash = storage.NotFound ->
  storage.Get t' db id hash = storage.NotFound.
Proof.
  intros Htt. rewrite !Get_cases.
  destruct (db !! composite_key id hash) as [e|]; [|reflexivity].
  destruct (badger.expired t e) eqn:He.
  - now rewrite (expired_mono t t' e Htt He).
  - destruct (badger.expired t' e); [reflexivity|].
    destruct (storage.Unmarshal (badger.Value e)) as [note|err]; auto.
Qed.

Lemma get_not_found_is_permanent_witness :
  storage.Get (time.Add t_2026 (9 * 24 * time.Hour))
              (fst (storage.Save t_2026 (accepted t_2026) ∅ note_uuid))
              (storage.ID note_uuid) (storage.Hash note_uuid)
  = storage.NotFound.
Proof.
  apply (get_not_found_is_permanent
           (fst (storage.Save t_2026 (accepted t_2026) ∅ note_uuid))
           (time.Add t_2026 (8 * 24 * time.Hour))
           (time.Add t_2026 (9 * 24 * time.Hour))).
  - vm_compute. discriminate.
  - vm_compute. reflexivity.
Defined.

(** X14: whenever [Get] returns an error it returns the zero note with it,
    and the error is either [ErrNotFound] itself or a storage error wrapped
    as a failed get. *)
Theorem get_error_returns_zero_note
  {codec : storage.Codec} (db : gmap string badger.Entry) (t : time.Time)
  (id hash : string) (n : storage.Note) (err : error) :
  storage.Get t db id hash = (n, Some err) ->
  n = storage.zero_Note
  /\ (err = ErrNotFound
      \/ exists cause, cause <> ErrNotFound /\ err = Wrapf "failed to get note: " cause).
Proof.
  rewrite Get_cases. unfold storage.NotFound.
  destruct (db !! composite_key id hash) as [e|]; [|intros [= <- <-]; auto].
  destruct (badger.expired t e); [intros [= <- <-]; auto|].
  destruct (storage.Unmarshal (badger.Value e)) as [note|cause]; [discriminate|].
  destruct (decide (cause = ErrNotFound)); intros [= <- <-]; eauto.
Qed.

Lemma get_error_returns_zero_note_witness :
  storage.zero_Note = storage.zero_Note
  /\ (ErrNotFound = ErrNotFound
      \/ exists cause, cause <> ErrNotFound
                       /\ ErrNotFound = Wrapf "failed to get note: " cause).
Proof.
  apply (get_error_returns_zero_note (codec := json.codec) ∅ t_2026 "a" "b").
  reflexivity.
Defined.

(** X15: a stored value that does not decode is reported as a failed get
    that wraps the decoder's error, not as NotFound. *)
Theorem get_undecodable_value_is_storage_error
  {codec : storage.Codec} (db : gmap string badger.Entry) (t : time.Time)
  (id hash : string) (e : badger.Entry) (err : error) :
  db !! composite_key id hash = Some e ->
  t < badger.ExpiresAt e ->
  storage.Unmarshal (badger.Value e) = inr err ->
  err <> ErrNotFound ->
  storage.Get t db id hash
  = (storage.zero_Note, Some (Wrapf "failed to get note: " err))
  /\ storage.Get t db id hash <> storage.NotFound.
Proof.
  intros Hlook Hlive Hdec Hne. rewrite Get_cases, Hlook.
  unfold badger.expired. rewrite (proj2 (Z.leb_gt _ _) Hlive), Hdec.
  destruct (decide (err = ErrNotFound)); [contradiction|].
  split; [reflexivity | discriminate].
Qed.

Lemma get_undecodable_value_is_storage_error_witness :
  storage.Get t_2026
    ({[ composite_key "a" "b" :=
          {| badger.Value := [2]; badger.ExpiresAt := unlock_10min |} ]})
    "a" "b"
  = (storage.zero_Note,
     Some (Wrapf "failed to get note: " (Foreign "invalid character")))
  /\ storage.Get t_2026
       ({[ composite_key "a" "b" :=
             {| badger.Value := [2]; badger.ExpiresAt := unlock_10min |} ]})
       "a" "b"
     <> storage.NotFound.
Proof.
  apply (get_undecodable_value_is_storage_error (codec := json.codec)
           ({[ composite_key "a" "b" :=
                 {| badger.Value := [2]; badger.ExpiresAt := unlock_10min |} ]})
           t_2026 "a" "b"
           {| badger.Value := [2]; badger.ExpiresAt := unlock_10min |}).
  - apply lookup_singleton_eq.
  - vm_compute. reflexivity.
  - vm_compute. reflexivity.
  - discriminate.
Defined.

(* ===================================================================== *)
(** * The handlers *)
(* ===================================================================== *)

Lemma hexdigit_not_colon (n : Z) : Ascii.eqb (hex.hexdigit n) ":" = false.
Proof.
  unfold hex.hexdigit. generalize (Z.to_nat n). intros k.
  do 16 (destruct k as [|k]; [reflexivity|]).
  destruct k; reflexivity.
Qed.

(** What [hex.EncodeToString] writes holds no colon and is twice as long
    as its input. *)
Lemma hex_colon_free (bs : list byte) : colon_free (hex.EncodeToString bs) = true.
Proof.
  induction bs as [|b bs IH]; [reflexivity|].
  cbn [hex.EncodeToString colon_free].
  now rewrite !hexdigit_not_colon, IH.
Qed.

Lemma hex_length (bs : list byte) :
  String.length (hex.EncodeToString bs) = (2 * length bs)%nat.
Proof.
  induction bs as [|b bs IH]; [reflexivity|].
  cbn [hex.EncodeToString String.length length]. rewrite IH. lia.
Qed.

Lemma hexdigit_ascii (n : Z) :
  (Z.of_nat (nat_of_ascii (hex.hexdigit n)) <? 128) = true.
Proof.
  unfold hex.hexdigit. generalize (Z.to_nat n). intros k.
  do 16 (destruct k as [|k]; [reflexivity|]).
  destruct k; reflexivity.
Qed.

(** Bytes below 128 are valid UTF-8 one by one. *)
Lemma valid_fuel_ascii_cons (b : byte) (p : list byte) (fuel : nat) :
  (b <? 128) = true ->
  utf8.valid_fuel (S fuel) (b :: p) = utf8.valid_fuel fuel p.
Proof.
  intros Hb. cbn [utf8.valid_fuel utf8.size]. rewrite Hb. reflexivity.
Qed.

(** What [hex.EncodeToString] writes is valid UTF-8. *)
Lemma hex_valid (bs : list byte) : utf8.ValidString (hex.EncodeToString bs) = true.
Proof.
  unfold utf8.ValidString.
  induction bs as [|b bs IH]; [reflexivity|].
  cbn [hex.EncodeToString bytes_of_string list_ascii_of_string map length].
  rewrite !valid_fuel_ascii_cons by apply hexdigit_ascii.
  exact IH.
Qed.

Section HandlerFacts.

Context {codec : storage.Codec}.
Variables (s : server.Server) (now nowSave : time.Time) (w : badger.Write).
Variables (rnd : io.Reader) (parse : string -> time.Time + error) (newID : string).
Variables (db : gmap string badger.Entry).

(** A 201 answer, taken apart: the request was valid, the note was saved
    under the new id and the hexadecimal fingerprint, and the URL names
    both. *)
Lemma handleCreateNote_created (body : option server.CreateNoteRequest)
  (url : string) (db' : gmap string badger.Entry) :
  server.handleCreateNote s now nowSave w rnd parse newID db body
  = Returns (server.Created url, db') ->
  exists req unlockAt cipher hash round,
    body = Some req
    /\ server.Text req <> EmptyString
    /\ parse (server.UnlockAt req) = inl unlockAt
    /\ (if server.testMode s
        then (cipher, hash, round)
             = (bytes_of_string (server.Text req), map Z.of_nat (seq 0 32), 12345)
        else crypto.Encrypt now rnd (bytes_of_string (server.Text req)) unlockAt
             = Returns (cipher, hash, round, None))
    /\ storage.Save nowSave w db
         {| storage.ID := newID; storage.Hash := hex.EncodeToString hash;
            storage.Cipher := cipher; storage.Round := round;
            storage.UnlockAt := unlockAt |}
       = (db', None)
    /\ url = (server.baseDomain s ++ "/note/" ++ newID ++ "/"
              ++ hex.EncodeToString hash)%string.
Proof.
  unfold server.handleCreateNote.
  destruct body as [req|]; [|discriminate].
  destruct (decide (server.Text req = EmptyString)) as [|Htext]; [discriminate|].
  destruct (parse (server.UnlockAt req)) as [unlockAt|e] eqn:Hparse; [|discriminate].
  destruct (server.testMode s) eqn:Hmode.
  - destruct (storage.Save _ _ _ _) as [db1 [e|]] eqn:Hsave; [discriminate|].
    intros [= <- <-].
    exists req, unlockAt, (bytes_of_string (server.Text req)),
      (map Z.of_nat (seq 0 32)), 12345.
    repeat split; auto.
  - destruct (crypto.Encrypt _ _ _ _) as [[[[cipher hash] round] [e|]]|msg] eqn:Henc;
      try discriminate.
    destruct (storage.Save _ _ _ _) as [db1 [e|]] eqn:Hsave; [discriminate|].
    intros [= <- <-].
    exists req, unlockAt, cipher, hash, round. repeat split; auto.
Qed.

End HandlerFacts.

(** X16: [handleCreateNote] answers 201, 400 or 500; it answers 400
    exactly when the body did not decode, the text is empty or the unlock
    time did not parse; and whenever it does not answer 201 the store is as
    it was. *)
Theorem create_failure_keeps_store
  {codec : storage.Codec} (s : server.Server) (now nowSave : time.Time)
  (w : badger.Write) (rnd : io.Reader) (parse : string -> time.Time + error)
  (newID : string) (db db' : gmap string badger.Entry)
  (body : option server.CreateNoteRequest) (r : server.response) :
  server.handleCreateNote s now nowSave w rnd parse newID db body = Returns (r, db') ->
  (server.StatusCode r = 201 \/ server.StatusCode r = 400 \/ server.StatusCode r = 500)
  /\ (server.StatusCode r = 400
      <-> body = None
          \/ exists req, body = Some req
                         /\ (server.Text req = EmptyString
                             \/ exists e, parse (server.UnlockAt req) = inr e))
  /\ (server.StatusCode r <> 201 -> db' = db).
Proof.
  unfold server.handleCreateNote.
  destruct body as [req|].
  2:{ intros [= <- <-]. cbn. split; [auto|]. split; [|auto]. split; auto. }
  destruct (decide (server.Text req = EmptyString)) as [Htext|Htext].
  { intros [= <- <-]. cbn. split; [auto|]. split; [|auto].
    split; [|auto]. intros _. right. exists req. auto. }
  destruct (parse (server.UnlockAt req)) as [unlockAt|e] eqn:Hparse.
  2:{ intros [= <- <-]. cbn. split; [auto|]. split; [|auto].
      split; [|auto]. intros _. right. exists req. eauto. }
  assert (Hvalid : ~ (Some req = None
                      \/ exists req0, Some req = Some req0
                           /\ (server.Text req0 = EmptyString
                               \/ exists e, parse (server.UnlockAt req0) = inr e))).
  { intros [H|(req0 & [= <-] & [H|[e H]])]; congruence. }
  set (encrypted := if server.testMode s then _ else _).
  destruct encrypted as [[[[cipher hash] round] [e|]]|msg]; try discriminate.
  { intros [= <- <-]. cbn. split; [auto|]. split; [|auto].
    split; [discriminate | intros H; now destruct (Hvalid H)]. }
  rewrite Save_cases.
  destruct (storage.Marshal _) as [data|e];
    [destruct (badger.Failure w) as [e|]|]; intros [= <- <-]; cbn.
  - split; [auto|]. split; [|auto].
    split; [discriminate | intros H; now destruct (Hvalid H)].
  - split; [auto|]. split; [|congruence].
    split; [discriminate | intros H; now destruct (Hvalid H)].
  - split; [auto|]. split; [|auto].
    split; [discriminate | intros H; now destruct (Hvalid H)].
Qed.

Lemma create_failure_keeps_store_witness :
  (server.StatusCode (server.HttpError 400 "Text cannot be empty") = 201
   \/ server.StatusCode (server.HttpError 400 "Text cannot be empty") = 400
   \/ server.StatusCode (server.HttpError 400 "Text cannot be empty") = 500)
  /\ (server.StatusCode (server.HttpError 400 "Text cannot be empty") = 400
      <-> Some {| server.Text := ""; server.UnlockAt := "2026-01-01T00:10:00Z" |} = None
          \/ exists req,
               Some {| server.Text := ""; server.UnlockAt := "2026-01-01T00:10:00Z" |}
               = Some req
               /\ (server.Text req = EmptyString
                   \/ exists e, parse_fixed (server.UnlockAt req) = inr e))
  /\ (server.StatusCode (server.HttpError 400 "Text cannot be empty") <> 201 ->
      (∅ : gmap string badger.Entry) = ∅).
Proof.
  apply (create_failure_keeps_store (codec := json.codec) srv t_2026 t_2026
           (accepted t_2026) fixed_reader parse_fixed uuid_1 ∅ ∅
           (Some {| server.Text := ""; server.UnlockAt := "2026-01-01T00:10:00Z" |})).
  reflexivity.
Defined.

(** X17: after a 201 the note is saved under the new id and a fingerprint
    of 64 characters holding no colon, the hexadecimal of 32 bytes, the URL
    is [baseDomain/note/id/fingerprint], and outside test mode the
    fingerprint is the hexadecimal SHA-256 of the stored blob and the round
    lies in the future of the clock. *)
Theorem created_note_is_addressed_by_url
  {codec : storage.Codec} (s : server.Server) (now nowSave : time.Time)
  (w : badger.Write) (rnd : io.Reader) (parse : string -> time.Time + error)
  (newID : string) (db db' : gmap string badger.Entry)
  (body : option server.CreateNoteRequest) (url : string) :
  server.handleCreateNote s now nowSave w rnd parse newID db body
  = Returns (server.Created url, db') ->
  exists note,
    storage.Save nowSave w db note = (db', None)
    /\ storage.ID note = newID
    /\ url = (server.baseDomain s ++ "/note/" ++ newID ++ "/" ++ storage.Hash note)%string
    /\ String.length (storage.Hash note) = 64%nat
    /\ colon_free (storage.Hash note) = true
    /\ (server.testMode s = false ->
        storage.Hash note = hex.EncodeToString (sha256.Sum256 (storage.Cipher note))
        /\ crypto.round_of now < storage.Round note)
    /\ (exists hash, length hash = 32%nat
                     /\ storage.Hash note = hex.EncodeToString hash).
Proof.
  intros Hcreate.
  destruct (handleCreateNote_created _ _ _ _ _ _ _ _ _ _ _ Hcreate)
    as (req & unlockAt & cipher & hash & round & _ & _ & _ & Henc & Hsave & Hurl).
  eexists. split; [exact Hsave|]. cbn [storage.ID storage.Hash storage.Cipher storage.Round].
  split; [reflexivity|]. split; [exact Hurl|].
  rewrite hex_length, hex_colon_free.
  destruct (server.testMode s).
  - injection Henc as -> -> ->.
    split; [reflexivity|]. split; [reflexivity|]. split; [discriminate|].
    eexists. split; [|reflexivity]. reflexivity.
  - destruct (Encrypt_success _ _ _ _ _ _ _ Henc)
      as (key & nonce & sealed & _ & _ & _ & _ & Hhash & Hround & Hlt).
    split; [now rewrite Hhash, length_Sum256|].
    split; [reflexivity|].
    split; [intros _; split; [now rewrite Hhash | exact Hlt]|].
    exists hash. split; [now rewrite Hhash, length_Sum256 | reflexivity].
Qed.

Lemma created_note_is_addressed_by_url_witness :
  exists note,
    storage.Save t_2026 (accepted t_2026) ∅ note
    = (fst (storage.Save t_2026 (accepted t_2026) ∅ note_hello), None)
    /\ storage.ID note = uuid_1
    /\ ("http://localhost:8083/note/" ++ uuid_1 ++ "/" ++ storage.Hash note_hello)%string
       = (server.baseDomain srv ++ "/note/" ++ uuid_1 ++ "/" ++ storage.Hash note)%string
    /\ String.length (storage.Hash note) = 64%nat
    /\ colon_free (storage.Hash note) = true
    /\ (server.testMode srv = false ->
        storage.Hash note = hex.EncodeToString (sha256.Sum256 (storage.Cipher note))
        /\ crypto.round_of t_2026 < storage.Round note)
    /\ (exists hash, length hash = 32%nat
                     /\ storage.Hash note = hex.EncodeToString hash).
Proof.
  apply (created_note_is_addressed_by_url (codec := json.codec) srv t_2026 t_2026
           (accepted t_2026) fixed_reader parse_fixed uuid_1 ∅
           (fst (storage.Save t_2026 (accepted t_2026) ∅ note_hello))
           (Some request_10min)).
  vm_compute. reflexivity.
Defined.

(** X18: outside test mode, a valid request whose unlock time maps to the
    current round or an earlier one is answered 500 "Failed to encrypt
    note", not 400, and nothing is stored. *)
Theorem create_past_unlock_is_500
  {codec : storage.Codec} (s : server.Server) (now nowSave : time.Time)
  (w : badger.Write) (rnd : io.Reader) (parse : string -> time.Time + error)
  (newID : string) (db : gmap string badger.Entry) (req : server.CreateNoteRequest)
  (unlockAt : time.Time) :
  server.testMode s = false ->
  server.Text req <> EmptyString ->
  parse (server.UnlockAt req) = inl unlockAt ->
  crypto.round_of unlockAt <= crypto.round_of now ->
  server.handleCreateNote s now nowSave w rnd parse newID db (Some req)
  = Returns (server.HttpError 500 "Failed to encrypt note", db).
Proof.
  intros Hmode Htext Hparse Hround. unfold server.handleCreateNote.
  destruct (decide _) as [|_]; [contradiction|].
  rewrite Hparse, Hmode, Encrypt_cases.
  now rewrite (proj2 (Z.leb_le _ _) Hround).
Qed.

(** X18 with the clock at the unlock time of the request. *)
Lemma create_past_unlock_is_500_witness :
  server.handleCreateNote srv unlock_10min unlock_10min (accepted unlock_10min)
    fixed_reader parse_fixed uuid_1 ∅ (Some request_10min)
  = Returns (server.HttpError 500 "Failed to encrypt note", ∅).
Proof.
  apply (create_past_unlock_is_500 (codec := json.codec) srv unlock_10min
           unlock_10min (accepted unlock_10min) fixed_reader parse_fixed uuid_1 ∅
           request_10min unlock_10min).
  - reflexivity.
  - discriminate.
  - reflexivity.
  - vm_compute. discriminate.
Defined.

Section GetHandlerFacts.

Context {codec : storage.Codec} {C : Type} `{Client C}.
Variables (s : server.Server) (DefaultClient : C).
Variables (nowGet nowDecrypt nowPage : time.Time).
Variables (db : gmap string badger.Entry) (id hash : string).

(** The answer for a note the store returned, by what the decryption
    gave. *)
Lemma handleGetNote_found (note : storage.Note) :
  storage.Get nowGet db id hash = (note, None) ->
  server.handleGetNote s DefaultClient nowGet nowDecrypt nowPage db id hash =
    let decrypted :=
      if server.testMode s
      then {| crypto.calls := [];
              crypto.result := Returns (storage.Cipher note, None) |}
      else crypto.Decrypt DefaultClient nowDecrypt
             (storage.Cipher note) (storage.Round note) in
    {| crypto.calls := crypto.calls decrypted;
       crypto.result :=
         match crypto.result decrypted with
         | Panics msg => Panics msg
         | Returns (_, Some decryptErr) =>
             if decide (decryptErr = ErrTooEarly)
             then Returns (server.TooEarlyPage (storage.UnlockAt note)
                             (duration_Round (time.Sub (storage.UnlockAt note) nowPage)
                                             time.Second))
             else Returns (server.HttpError 500 "Failed to decrypt note")
         | Returns (plaintext, None) =>
             Returns (server.NotePage (string_of_bytes plaintext) (storage.UnlockAt note))
         end |}.
Proof. intros Hget. unfold server.handleGetNote. now rewrite Hget. Qed.

(** The answer when the store returned an error. *)
Lemma handleGetNote_failed (n : storage.Note) (err : error) :
  storage.Get nowGet db id hash = (n, Some err) ->
  server.handleGetNote s DefaultClient nowGet nowDecrypt nowPage db id hash =
    {| crypto.calls := [];
       crypto.result :=
         if decide (err = ErrNotFound)
         then Returns (server.HttpError 404 "Note not found")
         else Returns (server.HttpError 500 "Failed to get note") |}.
Proof. intros Hget. unfold server.handleGetNote. now rewrite Hget. Qed.

(** The error of a failed [Get] is [ErrNotFound] exactly when the whole
    result is NotFound. *)
Lemma Get_error_NotFound (n : storage.Note) (err : error) :
  storage.Get nowGet db id hash = (n, Some err) ->
  (err = ErrNotFound <-> storage.Get nowGet db id hash = storage.NotFound).
Proof.
  rewrite Get_cases. unfold storage.NotFound.
  destruct (db !! composite_key id hash) as [e|]; [|intros [= <- <-]; tauto].
  destruct (badger.expired nowGet e); [intros [= <- <-]; tauto|].
  destruct (storage.Unmarshal (badger.Value e)) as [note|cause]; [discriminate|].
  destruct (decide (cause = ErrNotFound)); intros [= <- <-]; [tauto|].
  split; [discriminate | intros [=]].
Qed.

End GetHandlerFacts.

Section DecryptAfter.

Context {C : Type} `{Client C}.
Variables (DefaultClient : C) (now : time.Time).
Variables (ciphertext : list byte) (round : Z).

(** From the unlock instant on, [Decrypt] asks for the round once and its
    error, if any, is not [ErrTooEarly]. *)
Lemma Decrypt_after :
  time.Before now (crypto.unlock_time round) = false ->
  crypto.calls (crypto.Decrypt DefaultClient now ciphertext round) = [round]
  /\ forall p, crypto.result (crypto.Decrypt DefaultClient now ciphertext round)
               <> Returns (p, Some ErrTooEarly).
Proof.
  intros Hb. unfold_Decrypt. rewrite Hb.
  destruct (FetchRandomness DefaultClient round) as [rand [cause|]];
    cbn [crypto.calls crypto.result]; (split; [reflexivity|]); intros p;
    [discriminate|].
  destruct (length ciphertext <? 44)%nat; [discriminate|].
  destruct (crypto.derive_key _ _ _ _) as [actualKey|msg]; [|discriminate].
  destruct (aes.NewCipher actualKey) as [block|e]; [|discriminate].
  destruct (cipher.NewGCM block) as [aesgcm|e]; [|discriminate].
  destruct (cipher.Open _ _ _ _) as [[q [e|]]|msg]; discriminate.
Qed.

(** A plaintext comes only from a fetch without error, of a non-empty
    randomness, for a blob of at least 44 bytes, from the unlock instant
    on. *)
Lemma Decrypt_plaintext (p : list byte) :
  crypto.result (crypto.Decrypt DefaultClient now ciphertext round)
  = Returns (p, None) ->
  time.Before now (crypto.unlock_time round) = false
  /\ crypto.calls (crypto.Decrypt DefaultClient now ciphertext round) = [round]
  /\ (44 <= length ciphertext)%nat
  /\ exists rand, FetchRandomness DefaultClient round = (rand, None) /\ rand <> [].
Proof.
  unfold_Decrypt.
  destruct (time.Before now (crypto.unlock_time round)); [discriminate|].
  destruct (FetchRandomness DefaultClient round) as [rand [cause|]];
    cbn [crypto.calls crypto.result]; [discriminate|].
  destruct (Nat.ltb_spec (length ciphertext) 44); [discriminate|].
  intros Hres. split; [reflexivity|]. split; [reflexivity|]. split; [assumption|].
  exists rand. split; [reflexivity|].
  intros ->. discriminate.
Qed.

End DecryptAfter.

(** X19: a note made through [handleCreateNote] outside test mode, with an
    unlock time between the genesis and November 2312, is answered by
    [handleGetNote] with the 403 page, without a call of the beacon, as long
    as the store still holds it and the clock inside [Decrypt] is before
    the boundary of the note's round. *)
Theorem created_note_is_locked_until_boundary
  {codec : storage.Codec} {C : Type} `{Client C}
  (s : server.Server) (DefaultClient : C)
  (now nowSave : time.Time) (w : badger.Write)
  (nowGet nowDecrypt nowPage : time.Time) (rnd : io.Reader)
  (parse : string -> time.Time + error) (newID : string)
  (db db' : gmap string badger.Entry) (req : server.CreateNoteRequest)
  (unlockAt : time.Time) (url : string) :
  server.testMode s = false ->
  parse (server.UnlockAt req) = inl unlockAt ->
  (forall cipher hash round,
      storage.roundtrips codec
        {| storage.ID := newID; storage.Hash := hex.EncodeToString hash;
           storage.Cipher := cipher; storage.Round := round;
           storage.UnlockAt := unlockAt |}) ->
  server.handleCreateNote s now nowSave w rnd parse newID db (Some req)
  = Returns (server.Created url, db') ->
  time.Unix 1595431050 0 <= unlockAt < crypto.round_boundary 307445735 ->
  nowSave <= badger.Stamp w ->
  nowSave <= nowGet -> nowGet - nowSave < maxInt64 ->
  nowGet < unlockAt + storage.retention ->
  nowDecrypt < crypto.round_boundary (crypto.round_of unlockAt) ->
  exists fingerprint,
    url = (server.baseDomain s ++ "/note/" ++ newID ++ "/" ++ fingerprint)%string
    /\ server.handleGetNote s DefaultClient nowGet nowDecrypt nowPage db' newID fingerprint
       = {| crypto.calls := [];
            crypto.result :=
              Returns (server.TooEarlyPage unlockAt
                         (duration_Round (time.Sub unlockAt nowPage) time.Second)) |}.
Proof.
  intros Hmode Hparse Hrt Hcreate [Hg Hmax] Hstamp Hle Hspan Hlive Hearly.
  destruct (handleCreateNote_created _ _ _ _ _ _ _ _ _ _ _ Hcreate)
    as (req0 & unlockAt0 & cipher & hash & round & [= <-] & _ & Hparse0 & Henc
        & Hsave & Hurl).
  rewrite Hparse in Hparse0. injection Hparse0 as <-. rewrite Hmode in Henc.
  destruct (Encrypt_success _ _ _ _ _ _ _ Henc)
    as (_ & _ & _ & _ & _ & _ & _ & _ & Hround & _).
  exists (hex.EncodeToString hash). split; [exact Hurl|].
  assert (Hsec : 1595431050 <= unlockAt / time.Second < 1595431050 + 307445735 * 30).
  { pose proof Hg as Hg'. pose proof Hmax as Hmax'.
    unfold crypto.round_boundary, time.Unix, time.Second in Hg', Hmax' |- *.
    split; [apply Z.div_le_lower_bound; lia | apply Z.div_lt_upper_bound; lia]. }
  assert (Hfloor : crypto.round_of unlockAt = (unlockAt / time.Second - 1595431050) / 30).
  { apply round_of_floor; [exact Hg | unfold maxInt64; lia]. }
  assert (Hrange : 0 <= crypto.round_of unlockAt <= 307445734).
  { rewrite Hfloor. split; [apply Z.div_pos; lia|].
    assert ((unlockAt / time.Second - 1595431050) / 30 < 307445735)
      by (apply Z.div_lt_upper_bound; lia).
    lia. }
  set (note := {| storage.ID := newID; storage.Hash := hex.EncodeToString hash;
                  storage.Cipher := cipher; storage.Round := round;
                  storage.UnlockAt := unlockAt |}) in *.
  assert (Hget : storage.Get nowGet db' newID (hex.EncodeToString hash) = (note, None)).
  { apply (Get_after_Save db db' note nowSave w nowGet); [apply Hrt | exact Hsave |].
    apply before_deadline; [exact Hstamp | lia | exact Hlive]. }
  rewrite (handleGetNote_found _ _ _ _ _ _ _ _ note Hget), Hmode.
  cbn [storage.Cipher storage.Round storage.UnlockAt note]. rewrite Hround.
  rewrite Decrypt_before.
  - cbn zeta. cbn [crypto.calls crypto.result].
    destruct (decide (ErrTooEarly = ErrTooEarly)); [reflexivity | contradiction].
  - rewrite unlock_time_exact by exact Hrange.
    unfold time.Before. now apply Z.ltb_lt.
Qed.

(** X19 for the request of ten minutes, read five minutes after its
    creation. *)
Lemma created_note_is_locked_until_boundary_witness :
  exists fingerprint,
    ("http://localhost:8083/note/" ++ uuid_1 ++ "/" ++ storage.Hash note_hello)%string
    = (server.baseDomain srv ++ "/note/" ++ uuid_1 ++ "/" ++ fingerprint)%string
    /\ server.handleGetNote srv mock_0_to_31
         (time.Add t_2026 (5 * time.Minute)) (time.Add t_2026 (5 * time.Minute))
         (time.Add t_2026 (5 * time.Minute))
         (fst (storage.Save t_2026 (accepted t_2026) ∅ note_hello)) uuid_1 fingerprint
       = {| crypto.calls := [];
            crypto.result :=
              Returns (server.TooEarlyPage unlock_10min
                         (duration_Round
                            (time.Sub unlock_10min (time.Add t_2026 (5 * time.Minute)))
                            time.Second)) |}.
Proof.
  apply (created_note_is_locked_until_boundary (codec := json.codec) srv mock_0_to_31
           t_2026 t_2026 (accepted t_2026) (time.Add t_2026 (5 * time.Minute))
           (time.Add t_2026 (5 * time.Minute)) (time.Add t_2026 (5 * time.Minute))
           fixed_reader parse_fixed uuid_1 ∅
           (fst (storage.Save t_2026 (accepted t_2026) ∅ note_hello))
           request_10min unlock_10min).
  - reflexivity.
  - reflexivity.
  - intros cipher hash round. apply json_roundtrips; [reflexivity | apply hex_valid].
  - vm_compute. reflexivity.
  - vm_compute. split; [discriminate | reflexivity].
  - vm_compute. discriminate.
  - vm_compute. discriminate.
  - vm_compute. reflexivity.
  - vm_compute. reflexivity.
  - vm_compute. reflexivity.
Defined.



(** X21: [handleGetNote] answers 404 "Note not found" exactly when the
    store's [Get] is NotFound, any other failure of [Get] is answered 500
    "Failed to get note", and in both cases the beacon is not called. *)
Theorem get_note_404_iff_not_found
  {codec : storage.Codec} {C : Type} `{Client C}
  (s : server.Server) (DefaultClient : C) (nowGet nowDecrypt nowPage : time.Time)
  (db : gmap string badger.Entry) (id hash : string) :
  (forall r,
      crypto.result
        (server.handleGetNote s DefaultClient nowGet nowDecrypt nowPage db id hash)
      = Returns r ->
      (server.StatusCode r = 404 <-> storage.Get nowGet db id hash = storage.NotFound))
  /\ (forall n err,
        storage.Get nowGet db id hash = (n, Some err) ->
        crypto.calls
          (server.handleGetNote s DefaultClient nowGet nowDecrypt nowPage db id hash)
        = []
        /\ (crypto.result
              (server.handleGetNote s DefaultClient nowGet nowDecrypt nowPage db id hash)
            = Returns (server.HttpError 404 "Note not found")
            \/ crypto.result
                 (server.handleGetNote s DefaultClient nowGet nowDecrypt nowPage db id hash)
               = Returns (server.HttpError 500 "Failed to get note"))).
Proof.
  split.
  - intros r.
    destruct (storage.Get nowGet db id hash) as [note [err|]] eqn:Hget.
    + rewrite (handleGetNote_failed _ _ _ _ _ _ _ _ _ _ Hget). cbn [crypto.result].
      pose proof (Get_error_NotFound _ _ _ _ _ _ Hget) as Hnf. rewrite Hget in Hnf.
      destruct (decide (err = ErrNotFound)) as [He|He]; intros [= <-]; cbn.
      * split; [intros _; now apply Hnf | reflexivity].
      * split; [discriminate | intros Heq; now apply Hnf in Heq].
    + rewrite (handleGetNote_found _ _ _ _ _ _ _ _ _ Hget). cbn zeta.
      cbn [crypto.result].
      destruct (crypto.result _) as [[p [e|]]|msg]; [| |discriminate].
      * destruct (decide (e = ErrTooEarly)); intros [= <-]; cbn;
          (split; [discriminate | intros [=]]).
      * intros [= <-]; cbn. split; [discriminate | intros [=]].
  - intros n err Hget.
    rewrite (handleGetNote_failed _ _ _ _ _ _ _ _ _ _ Hget).
    cbn [crypto.calls crypto.result]. split; [reflexivity|].
    destruct (decide (err = ErrNotFound)); auto.
Qed.

(** X22: for a note the store returned, outside test mode, the answer is
    the 403 page exactly when the clock inside [Decrypt] is before the
    unlock instant computed from the note's round (not from its [UnlockAt]
    field); then the beacon is not called, and otherwise it is asked once,
    for that round. *)
Theorem get_note_locked_iff_before_unlock_time
  {codec : storage.Codec} {C : Type} `{Client C}
  (s : server.Server) (DefaultClient : C) (nowGet nowDecrypt nowPage : time.Time)
  (db : gmap string badger.Entry) (id hash : string) (note : storage.Note) :
  server.testMode s = false ->
  storage.Get nowGet db id hash = (note, None) ->
  crypto.calls (server.handleGetNote s DefaultClient nowGet nowDecrypt nowPage db id hash)
  = (if time.Before nowDecrypt (crypto.unlock_time (storage.Round note))
     then [] else [storage.Round note])
  /\ forall r,
       crypto.result
         (server.handleGetNote s DefaultClient nowGet nowDecrypt nowPage db id hash)
       = Returns r ->
       (server.StatusCode r = 403
        <-> time.Before nowDecrypt (crypto.unlock_time (storage.Round note)) = true).
Proof.
  intros Hmode Hget.
  rewrite (handleGetNote_found _ _ _ _ _ _ _ _ _ Hget), Hmode. cbn zeta.
  cbn [crypto.calls crypto.result].
  destruct (time.Before nowDecrypt (crypto.unlock_time (storage.Round note))) eqn:Hb.
  - rewrite (Decrypt_before _ _ _ _ Hb). cbn [crypto.calls crypto.result].
    split; [reflexivity|]. intros r.
    destruct (decide (ErrTooEarly = ErrTooEarly)); [|contradiction].
    intros [= <-]. cbn. tauto.
  - destruct (Decrypt_after DefaultClient nowDecrypt (storage.Cipher note)
                (storage.Round note) Hb) as [Hcalls Hnot].
    rewrite Hcalls. split; [reflexivity|]. intros r.
    destruct (crypto.result _) as [[p [e|]]|msg] eqn:Hres; [| |discriminate].
    + destruct (decide (e = ErrTooEarly)) as [->|_].
      * now destruct (Hnot p).
      * intros [= <-]. cbn. split; discriminate.
    + intros [= <-]. cbn. split; discriminate.
Qed.

(** X22 on the note of ten minutes, five minutes after its creation. *)
Lemma get_note_locked_iff_before_unlock_time_witness :
  crypto.calls
    (server.handleGetNote srv mock_0_to_31
       (time.Add t_2026 (5 * time.Minute)) (time.Add t_2026 (5 * time.Minute))
       (time.Add t_2026 (5 * time.Minute))
       (fst (storage.Save t_2026 (accepted t_2026) ∅ note_hello)) uuid_1 (storage.Hash note_hello))
  = (if time.Before (time.Add t_2026 (5 * time.Minute))
          (crypto.unlock_time (storage.Round note_hello))
     then [] else [storage.Round note_hello])
  /\ forall r,
       crypto.result
         (server.handleGetNote srv mock_0_to_31
            (time.Add t_2026 (5 * time.Minute)) (time.Add t_2026 (5 * time.Minute))
            (time.Add t_2026 (5 * time.Minute))
            (fst (storage.Save t_2026 (accepted t_2026) ∅ note_hello)) uuid_1 (storage.Hash note_hello))
       = Returns r ->
       (server.StatusCode r = 403
        <-> time.Before (time.Add t_2026 (5 * time.Minute))
              (crypto.unlock_time (storage.Round note_hello)) = true).
Proof.
  apply (get_note_locked_iff_before_unlock_time (codec := json.codec) srv mock_0_to_31).
  - reflexivity.
  - vm_compute. reflexivity.
Defined.

(** X23: outside test mode the 200 page is written only for a note the
    store returned, from the unlock instant of its round on, after exactly
    one call of the beacon for that round that gave a non-empty randomness
    and no error; the content is the plaintext [Decrypt] returned. *)
Theorem get_note_content_needs_beacon
  {codec : storage.Codec} {C : Type} `{Client C}
  (s : server.Server) (DefaultClient : C) (nowGet nowDecrypt nowPage : time.Time)
  (db : gmap string badger.Entry) (id hash : string)
  (content : string) (t : time.Time) :
  server.testMode s = false ->
  crypto.result (server.handleGetNote s DefaultClient nowGet nowDecrypt nowPage db id hash)
  = Returns (server.NotePage content t) ->
  exists note rand p,
    storage.Get nowGet db id hash = (note, None)
    /\ t = storage.UnlockAt note
    /\ time.Before nowDecrypt (crypto.unlock_time (storage.Round note)) = false
    /\ crypto.calls
         (server.handleGetNote s DefaultClient nowGet nowDecrypt nowPage db id hash)
       = [storage.Round note]
    /\ FetchRandomness DefaultClient (storage.Round note) = (rand, None)
    /\ rand <> []
    /\ (44 <= length (storage.Cipher note))%nat
    /\ crypto.result (crypto.Decrypt DefaultClient nowDecrypt (storage.Cipher note)
                        (storage.Round note))
       = Returns (p, None)
    /\ content = string_of_bytes p.
Proof.
  intros Hmode.
  destruct (storage.Get nowGet db id hash) as [note [err|]] eqn:Hget.
  { rewrite (handleGetNote_failed _ _ _ _ _ _ _ _ _ _ Hget). cbn [crypto.result].
    destruct (decide _); discriminate. }
  rewrite (handleGetNote_found _ _ _ _ _ _ _ _ _ Hget), Hmode. cbn zeta.
  cbn [crypto.calls crypto.result].
  destruct (crypto.result _) as [[p [e|]]|msg] eqn:Hres; [| |discriminate].
  { destruct (decide _); discriminate. }
  intros [= <- <-].
  destruct (Decrypt_plaintext _ _ _ _ _ Hres) as (Hb & Hcalls & Hlen & rand & Hf & Hne).
  exists note, rand, p. repeat split; auto.
Qed.

(** X23 on the note of ten minutes at its unlock time, with a beacon that
    answers 32 zero bytes. *)
Lemma get_note_content_needs_beacon_witness :
  exists note rand p,
    storage.Get unlock_10min (fst (storage.Save t_2026 (accepted t_2026) ∅ note_hello)) uuid_1
      (storage.Hash note_hello) = (note, None)
    /\ unlock_10min = storage.UnlockAt note
    /\ time.Before unlock_10min (crypto.unlock_time (storage.Round note)) = false
    /\ crypto.calls
         (server.handleGetNote srv mock_zeros unlock_10min unlock_10min unlock_10min
            (fst (storage.Save t_2026 (accepted t_2026) ∅ note_hello)) uuid_1 (storage.Hash note_hello))
       = [storage.Round note]
    /\ FetchRandomness mock_zeros (storage.Round note) = (rand, None)
    /\ rand <> []
    /\ (44 <= length (storage.Cipher note))%nat
    /\ crypto.result (crypto.Decrypt mock_zeros unlock_10min (storage.Cipher note)
                        (storage.Round note))
       = Returns (p, None)
    /\ "hello"%string = string_of_bytes p.
Proof.
  apply (get_note_content_needs_beacon (codec := json.codec) srv mock_zeros
           unlock_10min unlock_10min unlock_10min
           (fst (storage.Save t_2026 (accepted t_2026) ∅ note_hello)) uuid_1 (storage.Hash note_hello)
           "hello" unlock_10min).
  - reflexivity.
  - vm_compute. reflexivity.
Defined.

(** X24: for a note the store returned, outside test mode, from the unlock
    instant of its round on, a failed fetch of the beacon is answered 500
    "Failed to decrypt note" after that one call. *)
Theorem get_note_beacon_failure_is_500
  {codec : storage.Codec} {C : Type} `{Client C}
  (s : server.Server) (DefaultClient : C) (nowGet nowDecrypt nowPage : time.Time)
  (db : gmap string badger.Entry) (id hash : string) (note : storage.Note)
  (bytes : list byte) (err : error) :
  server.testMode s = false ->
  storage.Get nowGet db id hash = (note, None) ->
  time.Before nowDecrypt (crypto.unlock_time (storage.Round note)) = false ->
  FetchRandomness DefaultClient (storage.Round note) = (bytes, Some err) ->
  server.handleGetNote s DefaultClient nowGet nowDecrypt nowPage db id hash
  = {| crypto.calls := [storage.Round note];
       crypto.result := Returns (server.HttpError 500 "Failed to decrypt note") |}.
Proof.
  intros Hmode Hget Hb Hf.
  rewrite (handleGetNote_found _ _ _ _ _ _ _ _ _ Hget), Hmode.
  rewrite (Decrypt_fetch_failed _ _ _ _ _ _ Hb Hf). cbn zeta.
  cbn [crypto.calls crypto.result].
  destruct (decide _) as [Heq|_]; [discriminate Heq | reflexivity].
Qed.

(** X24 on the note of ten minutes at its unlock time, with the beacon
    down. *)
Lemma get_note_beacon_failure_is_500_witness :
  server.handleGetNote srv drand_down unlock_10min unlock_10min unlock_10min
    (fst (storage.Save t_2026 (accepted t_2026) ∅ note_hello)) uuid_1 (storage.Hash note_hello)
  = {| crypto.calls := [storage.Round note_hello];
       crypto.result := Returns (server.HttpError 500 "Failed to decrypt note") |}.
Proof.
  apply (get_note_beacon_failure_is_500 (codec := json.codec) srv drand_down
           unlock_10min unlock_10min unlock_10min
           (fst (storage.Save t_2026 (accepted t_2026) ∅ note_hello)) uuid_1 (storage.Hash note_hello)
           note_hello []
           (Wrapf "failed to fetch randomness: " (Foreign "context deadline exceeded"))).
  - reflexivity.
  - vm_compute. reflexivity.
  - vm_compute. reflexivity.
  - reflexivity.
Defined.

(** X25: with the drand wrapper as [DefaultClient], as [init] sets it, a
    failure of the library client reaches the caller of [Decrypt] wrapped
    twice in "failed to fetch randomness: ", without plaintext, whatever
    bytes the library returned beside the error. *)
Theorem decrypt_drand_failure_is_wrapped_twice
  (c : drand.Client) (now : time.Time) (ciphertext : list byte) (round : Z)
  (bytes : list byte) (cause : error) :
  time.Before now (crypto.unlock_time round) = false ->
  drand.client c round = (bytes, Some cause) ->
  crypto.Decrypt c now ciphertext round
  = {| crypto.calls := [round];
       crypto.result :=
         Returns ([], Some (Wrapf "failed to fetch randomness: "
                              (Wrapf "failed to fetch randomness: " cause))) |}.
Proof.
  intros Hb Hc.
  apply (Decrypt_fetch_failed c now ciphertext round [] _ Hb).
  unfold FetchRandomness, drand_Client, drand.FetchRandomness. now rewrite Hc.
Qed.

(** X25 on the blob of the run at [t_2026], at its unlock time. *)
Lemma decrypt_drand_failure_is_wrapped_twice_witness :
  crypto.Decrypt drand_down unlock_10min near_blob near_round
  = {| crypto.calls := [near_round];
       crypto.result :=
         Returns ([], Some (Wrapf "failed to fetch randomness: "
                              (Wrapf "failed to fetch randomness: "
                                 (Foreign "context deadline exceeded")))) |}.
Proof.
  apply (decrypt_drand_failure_is_wrapped_twice drand_down unlock_10min near_blob
           near_round []).
  - vm_compute. reflexivity.
  - reflexivity.
Defined.

(** X26: for the rounds 307445735 to 614891469 (unlock times from November
    2312 to about 2605) the product [time.Duration(round) * period] wraps to
    a negative duration, the unlock instant [Decrypt] computes lies before
    the genesis, and at every time from the genesis on [Decrypt] asks the
    beacon for the round and does not return [ErrTooEarly]. *)
Theorem Decrypt_wrapped_round_asks_beacon
  {C : Type} `{Client C} (DefaultClient : C) (now : time.Time)
  (ciphertext : list byte) (round : Z) :
  307445735 <= round <= 614891469 ->
  time.Unix 1595431050 0 <= now ->
  crypto.unlock_time round < time.Unix 1595431050 0
  /\ crypto.calls (crypto.Decrypt DefaultClient now ciphertext round) = [round]
  /\ forall p, crypto.result (crypto.Decrypt DefaultClient now ciphertext round)
               <> Returns (p, Some ErrTooEarly).
Proof.
  intros Hr Hnow.
  assert (Hwrap : crypto.unlock_time round < time.Unix 1595431050 0).
  { unfold crypto.unlock_time, time.Add, int64_mul.
    rewrite to_int64_mul_l. unfold to_int64, time.Unix, time.Second.
    assert (Hmod : (round * (30 * 1000000000) + 2 ^ 63) mod 2 ^ 64
                   = round * (30 * 1000000000) + 2 ^ 63 - 2 ^ 64).
    { symmetry. apply (Z.mod_unique_pos _ _ 1); lia. }
    rewrite Hmod. lia. }
  split; [exact Hwrap|].
  apply Decrypt_after. unfold time.Before. apply Z.ltb_ge. lia.
Qed.

(** X26 on the round of the year 2400, at [t_2026]. *)
Lemma Decrypt_wrapped_round_asks_beacon_witness :
  crypto.unlock_time far_round < time.Unix 1595431050 0
  /\ crypto.calls (crypto.Decrypt mock_zeros t_2026 far_blob far_round) = [far_round]
  /\ forall p, crypto.result (crypto.Decrypt mock_zeros t_2026 far_blob far_round)
               <> Returns (p, Some ErrTooEarly).
Proof.
  apply (Decrypt_wrapped_round_asks_beacon mock_zeros t_2026 far_blob far_round).
  - vm_compute. split; discriminate.
  - vm_compute. discriminate.
Defined.

(** X29: the general form of C4's failure.  For every unlock time from the
    year 1 up to 29 seconds before the genesis of the beacon, and every
    clock from the genesis on, the round of the specification is negative,
    hence below the current one, and [Encrypt] succeeds all the same, with
    the round 2^64 minus the number of whole periods between the unlock time
    and the genesis (given 44 random bytes and a plaintext within the GCM
    limit). *)
Theorem encrypt_unlock_before_genesis_succeeds
  (now : time.Time) (rnd : io.Reader) (plaintext : list byte) (unlockAt : time.Time) :
  time.Unix 1595431050 0 <= now -> now / time.Second <= maxInt64 ->
  time.Unix (-62135596800) 0 <= unlockAt < time.Unix 1595431021 0 ->
  (44 <= length (io.supply rnd))%nat ->
  Z.of_nat (length plaintext) <= cipher.gcmMaxPlaintext ->
  spec_round unlockAt < 0 <= spec_round now
  /\ crypto.round_of unlockAt = 2 ^ 64 - (1595431050 - unlockAt / time.Second) / 30
  /\ exists blob hash,
       crypto.Encrypt now rnd plaintext unlockAt
       = Returns (blob, hash, crypto.round_of unlockAt, None).
Proof.
  intros Hnow Hnowmax [Hlo Hhi] Hlen Hmax.
  pose proof (round_of_floor now Hnow Hnowmax) as Hcur.
  unfold time.Unix, time.Second in Hnow, Hlo, Hhi.
  assert (Hs : -62135596800 <= unlockAt / time.Second <= 1595431020).
  { unfold time.Second.
    split; [apply Z.div_le_lower_bound; lia|].
    assert (unlockAt / 1000000000 < 1595431021)
      by (apply Z.div_lt_upper_bound; lia).
    lia. }
  assert (Hn : 1595431050 <= now / time.Second).
  { unfold time.Second. apply Z.div_le_lower_bound; lia. }
  set (a := 1595431050 - unlockAt / time.Second).
  assert (Ha : 30 <= a <= 63731027850) by (unfold a; lia).
  assert (Hq : 1 <= a / 30 <= a).
  { split; [apply Z.div_le_lower_bound; lia | apply Z.div_le_upper_bound; lia]. }
  assert (Hround : crypto.round_of unlockAt = 2 ^ 64 - a / 30).
  { unfold crypto.round_of, time.UnixSeconds, int64_div, int64_sub.
    rewrite (to_int64_id (unlockAt / time.Second)) by (unfold minInt64, maxInt64; lia).
    rewrite (to_int64_id (_ - _)) by (unfold minInt64, maxInt64; lia).
    replace (unlockAt / time.Second - 1595431050) with (- a) by (unfold a; lia).
    rewrite Z.quot_opp_l, Z.quot_div_nonneg by lia.
    rewrite to_int64_id by (unfold minInt64, maxInt64; lia).
    unfold to_uint64. symmetry. apply (Z.mod_unique_pos _ _ (-1)); lia. }
  assert (Hspec : spec_round unlockAt < 0 <= spec_round now).
  { unfold spec_round. split.
    - apply Z.div_lt_upper_bound; lia.
    - apply Z.div_pos; lia. }
  assert (Hcurmax : crypto.round_of now <= maxInt64).
  { rewrite Hcur. unfold maxInt64 in *.
    assert ((now / time.Second - 1595431050) / 30 <= now / time.Second)
      by (apply Z.div_le_upper_bound; lia).
    lia. }
  split; [exact Hspec|]. split; [exact Hround|].
  rewrite Encrypt_cases.
  rewrite (proj2 (Z.leb_gt _ _)) by (rewrite Hround; unfold maxInt64 in Hcurmax; lia).
  rewrite (proj2 (Nat.ltb_ge _ _)) by lia.
  rewrite (proj2 (Nat.ltb_ge _ _)) by lia.
  unfold cipher.Seal.
  rewrite length_take, length_drop.
  replace (12 `min` (length (io.supply rnd) - 32))%nat with 12%nat by lia.
  cbn [Nat.eqb cipher.gcmStandardNonceSize negb].
  rewrite (proj2 (Z.ltb_ge _ _) Hmax).
  eexists _, _. reflexivity.
Qed.

(** X29 with the clock at 2026-01-01 and the unlock time at 2000-01-01. *)
Lemma encrypt_unlock_before_genesis_succeeds_witness :
  spec_round unlock_2000 < 0 <= spec_round t_2026
  /\ crypto.round_of unlock_2000 = 2 ^ 64 - (1595431050 - unlock_2000 / time.Second) / 30
  /\ exists blob hash,
       crypto.Encrypt t_2026 fixed_reader secret unlock_2000
       = Returns (blob, hash, crypto.round_of unlock_2000, None).
Proof.
  apply (encrypt_unlock_before_genesis_succeeds t_2026 fixed_reader secret unlock_2000).
  - vm_compute. discriminate.
  - vm_compute. discriminate.
  - vm_compute. split; [discriminate | reflexivity].
  - vm_compute. lia.
  - vm_compute. discriminate.
Defined.
